(** * Reliability middleware of opta-cli: circuit breaker, rate limiter,
      retry handler and the orchestrating [execute]

    A shallow embedding of [src/opta/middleware.py].

    Conventions of the embedding:
    - Python [int] is [Z].
    - A Python [float] that is a time, a delay, a latency or a cost is
      modelled by an exact rational of [Q]: [0.1] is [1#10] and [60.0] is
      [60], and sums, differences and comparisons are exact.
    - Where a float decides an [int] or an exception the binary64 format is
      modelled: the product in [int(n * x)] is the IEEE 754 product of the
      Standard Library's [SpecFloat], rounded to nearest, ties to even, on
      53 bits; the conversion of an [int] to a [float] rounds the same way
      and raises [OverflowError] when the [int] is too large; [int(x)]
      raises on an infinity and on a NaN; [x ** n] raises [OverflowError]
      when the power is out of the range of a float.
    - [time.time()] is an input: the pure component functions take the
      reading [now] as an argument; the orchestrator reads an arbitrary
      clock oracle.
    - [random.random()] is an input as well: a sample [r].
    - an object mutated in place becomes explicit state passing: a method
      returns the new object together with its result.
    - locks are not modelled: every method body is one atomic step. *)

From Stdlib Require Import ZArith QArith Qminmax Qround Qpower Qabs.
From Stdlib Require Import SpecFloat.
From Stdlib Require Import List Bool Lia Lqa.
From Stdlib Require String.
Import ListNotations.
Import String.StringSyntax.
Delimit Scope string_scope with string.

Open Scope Z_scope.

(** ** Python built-ins on floats *)

(** The built-in exceptions that the arithmetic and the indexing of the
    module raise. *)
Inductive Builtin : Set :=
| BIndexError
| BZeroDivisionError
| BOverflowError
| BValueError.

(** The value of an expression, or the built-in exception raised in its
    place. *)
Inductive Try (A : Type) : Type :=
| Returned (a : A)
| Raised (e : Builtin).
Arguments Returned {A} a.
Arguments Raised {A} e.

(** [a < b] on floats. *)
Definition Qltb (a b : Q) : bool :=
  match (a ?= b)%Q with Lt => true | _ => false end.

(** [a >= b] on floats. *)
Definition Qgeb (a b : Q) : bool := Qle_bool b a.

(** [max(a, b)]: the first argument unless the second is strictly greater. *)
Definition py_max (a b : Q) : Q := if Qltb a b then b else a.

(** [min(a, b)]: the first argument unless the second is strictly smaller. *)
Definition py_min (a b : Q) : Q := if Qltb b a then b else a.

(** The binary64 format: 53 bits of precision, exponents below 1024. A
    value of [float] is a Python float when it is [valid_binary]. *)
Definition prec : Z := 53.
Definition emax : Z := 1024.
Definition float : Set := spec_float.

(** The float that the conversion of the int [n] gives, as in [n * x] and
    [x ** n]: the nearest float, and [OverflowError] (int too large to
    convert to float) when that is no finite float. *)
Definition float_of_int (n : Z) : Try float :=
  match binary_normalize prec emax n 0 false with
  | S754_infinity _ => Raised BOverflowError
  | x => Returned x
  end.

(** The float that the literal [n/d] denotes; [1.5] is [float_lit 3 2]. *)
Definition float_lit (n d : Z) : float :=
  SFdiv prec emax (binary_normalize prec emax n 0 false)
    (binary_normalize prec emax d 0 false).

(** [x * y] on floats: it never raises, and overflows to an infinity. *)
Definition float_mul (x y : float) : float := SFmul prec emax x y.

(** [n * x] for an int [n] and a float [x]. *)
Definition int_times_float (n : Z) (x : float) : Try float :=
  match float_of_int n with
  | Returned y => Returned (float_mul y x)
  | Raised e => Raised e
  end.

(** [int(x)] on a float: truncation toward zero; [OverflowError] on an
    infinity and [ValueError] on a NaN. *)
Definition py_int (x : float) : Try Z :=
  match x with
  | S754_zero _ => Returned 0
  | S754_finite s m e =>
      Returned (cond_Zopp s (if e >=? 0 then Zpos m * 2 ^ e else Zpos m / 2 ^ (- e)))
  | S754_infinity _ => Raised BOverflowError
  | S754_nan => Raised BValueError
  end.

(** The number that a finite float is. *)
Definition float_to_Q (x : float) : Q :=
  match x with
  | S754_finite s m e => (inject_Z (cond_Zopp s (Zpos m)) * 2 ^ e)%Q
  | _ => 0%Q
  end.

(** A number of this magnitude or more is no finite float when rounded to
    nearest: the largest finite float plus half a unit in its last
    place. *)
Definition float_overflow : Q := inject_Z (2 ^ 1024 - 2 ^ 970).

(** The int that the float of the int [n] is, as in [x ** n]: [n] itself
    up to 53 bits, which every float holds, and beyond that the nearest
    float. *)
Definition rounded_int (n : Z) : Try Z :=
  if Z.abs n <=? 2 ^ 53 then Returned n
  else
    match float_of_int n with
    | Returned w => py_int w
    | Raised e => Raised e
    end.

(** [b ** n] for a float [b] and an int [n]. The int is converted to a
    float first, which raises [OverflowError] when it is too large;
    [0.0 ** n] with [n < 0] raises [ZeroDivisionError]; a power out of the
    range of a float raises [OverflowError]. *)
Definition float_pow (b : Q) (n : Z) : Try Q :=
  match rounded_int n with
  | Raised e => Raised e
  | Returned iw =>
      if (iw <? 0) && Qeq_bool b 0 then Raised BZeroDivisionError
      else
        let p := (b ^ iw)%Q in
        if Qle_bool float_overflow (Qabs p) then Raised BOverflowError
        else Returned p
  end.

(** [random.uniform(a, b)] is [a + (b - a) * random()]; [r] is the value
    drawn by [random()], which lies in [0, 1). *)
Definition uniform (a b r : Q) : Q := (a + (b - a) * r)%Q.

(** Truthiness of an [Optional[float]]: [None] and [0.0] are falsy. *)
Definition truthy (t : option Q) : bool :=
  match t with
  | None => false
  | Some x => negb (Qeq_bool x 0)
  end.

(** ** Circuit breaker *)

Inductive CircuitState : Set := CLOSED | OPEN | HALF_OPEN.

Definition CircuitState_eqb (a b : CircuitState) : bool :=
  match a, b with
  | CLOSED, CLOSED | OPEN, OPEN | HALF_OPEN, HALF_OPEN => true
  | _, _ => false
  end.

Record CircuitBreakerConfig : Set := mkCircuitBreakerConfig {
  failure_threshold : Z;
  recovery_timeout : Q;
  half_open_max_calls : Z;
  success_threshold : Z
}.

Definition default_CircuitBreakerConfig : CircuitBreakerConfig :=
  mkCircuitBreakerConfig 5 30 3 2.

Record CircuitBreaker : Set := mkCircuitBreaker {
  cb_config : CircuitBreakerConfig;
  _state : CircuitState;
  _failure_count : Z;
  _success_count : Z;
  _last_failure_time : option Q;
  _half_open_calls : Z
}.

(** [CircuitBreaker.__init__] *)
Definition CircuitBreaker_init (config : CircuitBreakerConfig) : CircuitBreaker :=
  mkCircuitBreaker config CLOSED 0 0 None 0.

(** Whether the [state] property evaluates [time.time()]: only when the
    breaker is OPEN and [_last_failure_time] is truthy. *)
Definition state_reads_clock (self : CircuitBreaker) : bool :=
  match _state self with
  | OPEN => truthy (_last_failure_time self)
  | _ => false
  end.

(** The [state] property: a read that may move OPEN to HALF_OPEN. *)
Definition state (now : Q) (self : CircuitBreaker) : CircuitBreaker * CircuitState :=
  match _state self with
  | OPEN =>
      match _last_failure_time self with
      | Some t =>
          if negb (Qeq_bool t 0)
             && Qgeb (now - t) (recovery_timeout (cb_config self))
          then (mkCircuitBreaker (cb_config self) HALF_OPEN
                  (_failure_count self) 0 (_last_failure_time self) 0,
                HALF_OPEN)
          else (self, OPEN)
      | None => (self, OPEN)
      end
  | s => (self, s)
  end.

(** [can_execute] *)
Definition can_execute (now : Q) (self : CircuitBreaker) : CircuitBreaker * bool :=
  let '(self, st) := state now self in
  match st with
  | CLOSED => (self, true)
  | OPEN => (self, false)
  | HALF_OPEN =>
      if _half_open_calls self <? half_open_max_calls (cb_config self)
      then (mkCircuitBreaker (cb_config self) (_state self)
              (_failure_count self) (_success_count self)
              (_last_failure_time self) (_half_open_calls self + 1),
            true)
      else (self, false)
  end.

(** [record_success] *)
Definition record_success (self : CircuitBreaker) : CircuitBreaker :=
  match _state self with
  | HALF_OPEN =>
      let sc := _success_count self + 1 in
      if sc >=? success_threshold (cb_config self)
      then mkCircuitBreaker (cb_config self) CLOSED 0 sc
             (_last_failure_time self) (_half_open_calls self)
      else mkCircuitBreaker (cb_config self) HALF_OPEN (_failure_count self) sc
             (_last_failure_time self) (_half_open_calls self)
  | CLOSED =>
      mkCircuitBreaker (cb_config self) CLOSED
        (Z.max 0 (_failure_count self - 1)) (_success_count self)
        (_last_failure_time self) (_half_open_calls self)
  | OPEN => self
  end.

(** [record_failure]; [now] is the reading of [time.time()]. *)
Definition record_failure (now : Q) (self : CircuitBreaker) : CircuitBreaker :=
  let fc := _failure_count self + 1 in
  let st :=
    match _state self with
    | HALF_OPEN => OPEN
    | CLOSED => if fc >=? failure_threshold (cb_config self) then OPEN else CLOSED
    | OPEN => OPEN
    end in
  mkCircuitBreaker (cb_config self) st fc (_success_count self) (Some now)
    (_half_open_calls self).

(** [CircuitBreaker.reset] *)
Definition cb_reset (self : CircuitBreaker) : CircuitBreaker :=
  mkCircuitBreaker (cb_config self) CLOSED 0 0 None 0.

(** Sequences of calls on one breaker. *)
Fixpoint record_failures (times : list Q) (self : CircuitBreaker) : CircuitBreaker :=
  match times with
  | [] => self
  | t :: rest => record_failures rest (record_failure t self)
  end.

Fixpoint record_successes (n : nat) (self : CircuitBreaker) : CircuitBreaker :=
  match n with
  | O => self
  | S k => record_successes k (record_success self)
  end.

Fixpoint can_execute_calls (times : list Q) (self : CircuitBreaker)
  : CircuitBreaker * list bool :=
  match times with
  | [] => (self, [])
  | t :: rest =>
      let '(self1, b) := can_execute t self in
      let '(self2, bs) := can_execute_calls rest self1 in
      (self2, b :: bs)
  end.

(** The calls a client can make on a breaker, and the breakers they reach. *)
Inductive CBCall : Set :=
| CallState (now : Q)
| CallCanExecute (now : Q)
| CallRecordSuccess
| CallRecordFailure (now : Q)
| CallReset.

Definition cb_call (c : CBCall) (self : CircuitBreaker) : CircuitBreaker :=
  match c with
  | CallState now => fst (state now self)
  | CallCanExecute now => fst (can_execute now self)
  | CallRecordSuccess => record_success self
  | CallRecordFailure now => record_failure now self
  | CallReset => cb_reset self
  end.

Definition cb_calls (cs : list CBCall) (self : CircuitBreaker) : CircuitBreaker :=
  fold_left (fun s c => cb_call c s) cs self.

(** Counters are never negative and a breaker that left CLOSED has seen a
    failure. *)
Definition cb_wf (self : CircuitBreaker) : Prop :=
  0 <= _failure_count self /\
  0 <= _success_count self /\
  0 <= _half_open_calls self /\
  (_state self <> CLOSED -> _last_failure_time self <> None).

(** What holds of a breaker between calls when both thresholds are at
    least one. *)
Definition cb_bounded (self : CircuitBreaker) : Prop :=
  (_state self = CLOSED ->
   _failure_count self < failure_threshold (cb_config self)) /\
  (_state self = HALF_OPEN ->
   _success_count self < success_threshold (cb_config self)) /\
  _half_open_calls self <= Z.max 0 (half_open_max_calls (cb_config self)).

(** ** Rate limiter *)

Record RateLimiterConfig : Set := mkRateLimiterConfig {
  requests_per_minute : Z;
  tokens_per_minute : Z;
  burst_allowance : float
}.

Definition default_RateLimiterConfig : RateLimiterConfig :=
  mkRateLimiterConfig 60 100000 (float_lit 3 2).

(** The two deques: request timestamps and [(timestamp, tokens)] pairs,
    oldest entry first. *)
Record RateLimiter : Set := mkRateLimiter {
  rl_config : RateLimiterConfig;
  _request_timestamps : list Q;
  _token_usage : list (Q * Z)
}.

Definition RateLimiter_init (config : RateLimiterConfig) : RateLimiter :=
  mkRateLimiter config [] [].

(** [while dq and dq[0] < window_start: dq.popleft()] *)
Fixpoint prune_requests (window_start : Q) (dq : list Q) : list Q :=
  match dq with
  | [] => []
  | t :: rest =>
      if Qltb t window_start then prune_requests window_start rest else dq
  end.

(** [while dq and dq[0][0] < window_start: dq.popleft()] *)
Fixpoint prune_tokens (window_start : Q) (dq : list (Q * Z)) : list (Q * Z) :=
  match dq with
  | [] => []
  | e :: rest =>
      if Qltb (fst e) window_start then prune_tokens window_start rest else dq
  end.

(** [sum(t[1] for t in self._token_usage)] *)
Definition sum_tokens (dq : list (Q * Z)) : Z :=
  fold_left (fun acc e => acc + snd e) dq 0.

(** [int(self.config.requests_per_minute * self.config.burst_allowance)] *)
Definition max_requests (c : RateLimiterConfig) : Try Z :=
  match int_times_float (requests_per_minute c) (burst_allowance c) with
  | Returned x => py_int x
  | Raised e => Raised e
  end.

(** [int(self.config.tokens_per_minute * self.config.burst_allowance)] *)
Definition max_tokens (c : RateLimiterConfig) : Try Z :=
  match int_times_float (tokens_per_minute c) (burst_allowance c) with
  | Returned x => py_int x
  | Raised e => Raised e
  end.

(** [can_proceed]. The limiter is pruned in every case. The result is the
    returned tuple, or the exception raised: by the computation of a cap,
    or the [IndexError] of [self._request_timestamps[0]] on an empty
    deque. The token cap is computed only when the request check has
    passed. *)
Definition can_proceed (now : Q) (estimated_tokens : Z) (self : RateLimiter)
  : RateLimiter * Try (bool * option Q) :=
  let window_start := (now - 60)%Q in
  let reqs := prune_requests window_start (_request_timestamps self) in
  let toks := prune_tokens window_start (_token_usage self) in
  let self' := mkRateLimiter (rl_config self) reqs toks in
  match max_requests (rl_config self) with
  | Raised e => (self', Raised e)
  | Returned request_cap =>
      if Z.of_nat (length reqs) >=? request_cap then
        match reqs with
        | [] => (self', Raised BIndexError)
        | t0 :: _ =>
            (self', Returned (false, Some (py_max (1 # 10) (t0 - window_start))))
        end
      else
        let total_tokens := sum_tokens toks in
        match max_tokens (rl_config self) with
        | Raised e => (self', Raised e)
        | Returned token_cap =>
            if total_tokens + estimated_tokens >? token_cap then
              match toks with
              | e0 :: _ =>
                  (self',
                   Returned (false, Some (py_max (1 # 10) (fst e0 - window_start))))
              | [] => (self', Returned (true, None))
              end
            else (self', Returned (true, None))
        end
  end.

(** [record_request] *)
Definition record_request (now : Q) (tokens_used : Z) (self : RateLimiter)
  : RateLimiter :=
  mkRateLimiter (rl_config self)
    (_request_timestamps self ++ [now])
    (if tokens_used >? 0 then _token_usage self ++ [(now, tokens_used)]
     else _token_usage self).

(** A sequence of [record_request] calls, each with its time and its
    tokens. *)
Definition record_requests (entries : list (Q * Z)) (self : RateLimiter)
  : RateLimiter :=
  fold_left (fun s e => record_request (fst e) (snd e) s) entries self.

(** The entries of a log that lie in the window starting at [window_start]. *)
Definition requests_in_window (window_start : Q) (dq : list Q) : list Q :=
  filter (fun t => negb (Qltb t window_start)) dq.

Definition tokens_in_window (window_start : Q) (dq : list (Q * Z)) : list (Q * Z) :=
  filter (fun e => negb (Qltb (fst e) window_start)) dq.

(** Timestamps in non-decreasing order, as appended under a clock that does
    not go backwards. *)
Fixpoint time_ordered (dq : list Q) : Prop :=
  match dq with
  | [] => True
  | t :: rest => (forall u, In u rest -> (t <= u)%Q) /\ time_ordered rest
  end.

(** The calls a client can make on a limiter. *)
Inductive RLCall : Set :=
| CallCanProceed (now : Q) (estimated_tokens : Z)
| CallRecordRequest (now : Q) (tokens_used : Z).

Definition rl_call (c : RLCall) (self : RateLimiter) : RateLimiter :=
  match c with
  | CallCanProceed now est => fst (can_proceed now est self)
  | CallRecordRequest now used => record_request now used self
  end.

Definition rl_calls (cs : list RLCall) (self : RateLimiter) : RateLimiter :=
  fold_left (fun s c => rl_call c s) cs self.

(** The timestamps of the token log form a subsequence of the request log:
    [record_request] appends to both with one reading of the clock. *)
Inductive subseq : list Q -> list Q -> Prop :=
| subseq_nil (l : list Q) : subseq [] l
| subseq_skip (x : Q) (l1 l2 : list Q) : subseq l1 l2 -> subseq l1 (x :: l2)
| subseq_take (x : Q) (l1 l2 : list Q) : subseq l1 l2 -> subseq (x :: l1) (x :: l2).

Definition tokens_follow_requests (self : RateLimiter) : Prop :=
  subseq (map fst (_token_usage self)) (_request_timestamps self).

(** Time order of the logs under a clock that does not go backwards. *)
Definition call_time (c : RLCall) : Q :=
  match c with
  | CallCanProceed now _ => now
  | CallRecordRequest now _ => now
  end.

(** Both logs time-ordered, and every logged time within a bound. *)
Definition rl_ordered (bound : Q -> Prop) (self : RateLimiter) : Prop :=
  time_ordered (_request_timestamps self) /\
  time_ordered (map fst (_token_usage self)) /\
  (forall t, In t (_request_timestamps self) -> bound t) /\
  (forall e, In e (_token_usage self) -> bound (fst e)).

(** ** Retry handler *)

Record RetryConfig : Set := mkRetryConfig {
  max_retries : Z;
  base_delay : Q;
  max_delay : Q;
  exponential_base : Q;
  jitter : Q
}.

Definition default_RetryConfig : RetryConfig :=
  mkRetryConfig 3 1 60 2 (1 # 10).


(** [calculate_delay]; [r] is the sample drawn by [random.uniform]. *)
Definition calculate_delay (c : RetryConfig) (attempt : Z) (r : Q) : Try Q :=
  match float_pow (exponential_base c) attempt with
  | Raised e => Raised e
  | Returned p =>
      let delay := (base_delay c * p)%Q in
      let delay := py_min delay (max_delay c) in
      let jitter_range := (delay * jitter c)%Q in
      let delay := (delay + uniform (- jitter_range) jitter_range r)%Q in
      Returned (py_max (1 # 10) delay)
  end.

(** What [should_retry] reads of the [ExInfo] returned by
    [LiteLLMExceptions().get_ex_info]: its [retry] field, [True], [False] or
    [None]. *)
Record ExInfo : Set := mkExInfo { retry : option bool }.

Section RetryHandler.
Variable Exn : Type.
(** The error classifier of [opta.exceptions], which is not part of the
    module under study. *)
Variable get_ex_info : Exn -> ExInfo.

(** [should_retry] *)
Definition should_retry (c : RetryConfig) (attempt : Z) (exception : Exn) : bool :=
  if attempt >=? max_retries c then false
  else
    let ex_info := get_ex_info exception in
    match retry ex_info with
    | Some verdict => verdict
    | None => false
    end.
End RetryHandler.

(** ** Metrics *)

Record MiddlewareMetrics : Set := mkMiddlewareMetrics {
  total_requests : Z;
  successful_requests : Z;
  failed_requests : Z;
  retried_requests : Z;
  circuit_breaker_rejections : Z;
  rate_limit_rejections : Z;
  total_tokens_sent : Z;
  total_tokens_received : Z;
  total_cost : Q;
  last_request_time : option Q;
  average_latency_ms : Q;
  _latencies : list Q
}.

(** [MiddlewareMetrics()] *)
Definition MiddlewareMetrics_init : MiddlewareMetrics :=
  mkMiddlewareMetrics 0 0 0 0 0 0 0 0 0 None 0 [].

Definition sum_latencies (l : list Q) : Q := fold_left Qplus l 0%Q.

(** [deque(maxlen=100).append]: the oldest sample is dropped when full. *)
Definition latencies_append (l : list Q) (x : Q) : list Q :=
  let l' := l ++ [x] in
  if (100 <? length l')%nat then tl l' else l'.

Definition set_total_requests (f : Z -> Z) (m : MiddlewareMetrics) :=
  mkMiddlewareMetrics (f (total_requests m)) (successful_requests m)
    (failed_requests m) (retried_requests m) (circuit_breaker_rejections m)
    (rate_limit_rejections m) (total_tokens_sent m) (total_tokens_received m)
    (total_cost m) (last_request_time m) (average_latency_ms m) (_latencies m).

Definition set_successful_requests (f : Z -> Z) (m : MiddlewareMetrics) :=
  mkMiddlewareMetrics (total_requests m) (f (successful_requests m))
    (failed_requests m) (retried_requests m) (circuit_breaker_rejections m)
    (rate_limit_rejections m) (total_tokens_sent m) (total_tokens_received m)
    (total_cost m) (last_request_time m) (average_latency_ms m) (_latencies m).

Definition set_failed_requests (f : Z -> Z) (m : MiddlewareMetrics) :=
  mkMiddlewareMetrics (total_requests m) (successful_requests m)
    (f (failed_requests m)) (retried_requests m) (circuit_breaker_rejections m)
    (rate_limit_rejections m) (total_tokens_sent m) (total_tokens_received m)
    (total_cost m) (last_request_time m) (average_latency_ms m) (_latencies m).

Definition set_retried_requests (f : Z -> Z) (m : MiddlewareMetrics) :=
  mkMiddlewareMetrics (total_requests m) (successful_requests m)
    (failed_requests m) (f (retried_requests m)) (circuit_breaker_rejections m)
    (rate_limit_rejections m) (total_tokens_sent m) (total_tokens_received m)
    (total_cost m) (last_request_time m) (average_latency_ms m) (_latencies m).

Definition set_circuit_breaker_rejections (f : Z -> Z) (m : MiddlewareMetrics) :=
  mkMiddlewareMetrics (total_requests m) (successful_requests m)
    (failed_requests m) (retried_requests m) (f (circuit_breaker_rejections m))
    (rate_limit_rejections m) (total_tokens_sent m) (total_tokens_received m)
    (total_cost m) (last_request_time m) (average_latency_ms m) (_latencies m).

Definition set_rate_limit_rejections (f : Z -> Z) (m : MiddlewareMetrics) :=
  mkMiddlewareMetrics (total_requests m) (successful_requests m)
    (failed_requests m) (retried_requests m) (circuit_breaker_rejections m)
    (f (rate_limit_rejections m)) (total_tokens_sent m) (total_tokens_received m)
    (total_cost m) (last_request_time m) (average_latency_ms m) (_latencies m).

Definition set_total_tokens_sent (f : Z -> Z) (m : MiddlewareMetrics) :=
  mkMiddlewareMetrics (total_requests m) (successful_requests m)
    (failed_requests m) (retried_requests m) (circuit_breaker_rejections m)
    (rate_limit_rejections m) (f (total_tokens_sent m)) (total_tokens_received m)
    (total_cost m) (last_request_time m) (average_latency_ms m) (_latencies m).

Definition set_total_tokens_received (f : Z -> Z) (m : MiddlewareMetrics) :=
  mkMiddlewareMetrics (total_requests m) (successful_requests m)
    (failed_requests m) (retried_requests m) (circuit_breaker_rejections m)
    (rate_limit_rejections m) (total_tokens_sent m) (f (total_tokens_received m))
    (total_cost m) (last_request_time m) (average_latency_ms m) (_latencies m).

Definition set_total_cost (f : Q -> Q) (m : MiddlewareMetrics) :=
  mkMiddlewareMetrics (total_requests m) (successful_requests m)
    (failed_requests m) (retried_requests m) (circuit_breaker_rejections m)
    (rate_limit_rejections m) (total_tokens_sent m) (total_tokens_received m)
    (f (total_cost m)) (last_request_time m) (average_latency_ms m) (_latencies m).

Definition set_last_request_time (t : option Q) (m : MiddlewareMetrics) :=
  mkMiddlewareMetrics (total_requests m) (successful_requests m)
    (failed_requests m) (retried_requests m) (circuit_breaker_rejections m)
    (rate_limit_rejections m) (total_tokens_sent m) (total_tokens_received m)
    (total_cost m) t (average_latency_ms m) (_latencies m).

(** [record_latency]: after the append the deque is never empty, so the
    average is always recomputed. *)
Definition record_latency (latency_ms : Q) (m : MiddlewareMetrics) :=
  let l := latencies_append (_latencies m) latency_ms in
  mkMiddlewareMetrics (total_requests m) (successful_requests m)
    (failed_requests m) (retried_requests m) (circuit_breaker_rejections m)
    (rate_limit_rejections m) (total_tokens_sent m) (total_tokens_received m)
    (total_cost m) (last_request_time m)
    (match l with
     | [] => average_latency_ms m
     | _ => (sum_latencies l / inject_Z (Z.of_nat (length l)))%Q
     end)
    l.

(** Values of the dictionaries the middleware reports; a dictionary is the
    list of its items in the order of the literal. *)
Inductive PyValue : Type :=
| PyInt (n : Z)
| PyFloat (x : Q)
| PyBool (b : bool)
| PyStr (s : String.string).

(** A value of the status dictionary: a plain value or the dictionary of
    the metrics. *)
Inductive StatusValue : Type :=
| Plain (v : PyValue)
| Nested (items : list (String.string * PyValue)).

(** [d.get(key)]: [None] when the key is missing. *)
Fixpoint dict_get {V : Type} (d : list (String.string * V)) (key : String.string)
  : option V :=
  match d with
  | [] => None
  | (k, v) :: rest => if String.eqb k key then Some v else dict_get rest key
  end.

(** [MiddlewareMetrics.to_dict] *)
Definition to_dict (m : MiddlewareMetrics) : list (String.string * PyValue) :=
  [("total_requests"%string, PyInt (total_requests m));
   ("successful_requests"%string, PyInt (successful_requests m));
   ("failed_requests"%string, PyInt (failed_requests m));
   ("retried_requests"%string, PyInt (retried_requests m));
   ("circuit_breaker_rejections"%string, PyInt (circuit_breaker_rejections m));
   ("rate_limit_rejections"%string, PyInt (rate_limit_rejections m));
   ("total_tokens_sent"%string, PyInt (total_tokens_sent m));
   ("total_tokens_received"%string, PyInt (total_tokens_received m));
   ("total_cost"%string, PyFloat (total_cost m));
   ("average_latency_ms"%string, PyFloat (average_latency_ms m));
   ("success_rate"%string,
    PyFloat (if total_requests m >? 0
             then (inject_Z (successful_requests m) / inject_Z (total_requests m))%Q
             else 0%Q))].

(** The value of a [CircuitState] member. *)
Definition CircuitState_value (s : CircuitState) : String.string :=
  match s with
  | CLOSED => "closed"%string
  | OPEN => "open"%string
  | HALF_OPEN => "half_open"%string
  end.

(** Every counted request has at most one outcome, and no counter is
    negative. *)
Definition metrics_accounted (m : MiddlewareMetrics) : Prop :=
  0 <= successful_requests m /\
  0 <= failed_requests m /\
  0 <= circuit_breaker_rejections m /\
  0 <= rate_limit_rejections m /\
  0 <= retried_requests m /\
  successful_requests m + failed_requests m + circuit_breaker_rejections m
    + rate_limit_rejections m <= total_requests m.

(** A sequence of latency samples recorded one after the other. *)
Definition record_latencies (samples : list Q) (m : MiddlewareMetrics)
  : MiddlewareMetrics :=
  fold_left (fun acc x => record_latency x acc) samples m.

(** ** The orchestrator *)

Record MiddlewareConfig : Set := mkMiddlewareConfig {
  cfg_circuit_breaker : CircuitBreakerConfig;
  cfg_rate_limiter : RateLimiterConfig;
  cfg_retry : RetryConfig;
  enabled : bool;
  verbose : bool
}.

Definition default_MiddlewareConfig : MiddlewareConfig :=
  mkMiddlewareConfig default_CircuitBreakerConfig default_RateLimiterConfig
    default_RetryConfig true false.

(** The retry handler holds nothing but [config.retry], so the object is its
    configuration, its breaker, its limiter and its metrics. *)
Record ProductionMiddleware : Set := mkProductionMiddleware {
  config : MiddlewareConfig;
  circuit_breaker : CircuitBreaker;
  rate_limiter : RateLimiter;
  metrics : MiddlewareMetrics
}.

(** [ProductionMiddleware.__init__] *)
Definition ProductionMiddleware_init (c : MiddlewareConfig) : ProductionMiddleware :=
  mkProductionMiddleware c
    (CircuitBreaker_init (cfg_circuit_breaker c))
    (RateLimiter_init (cfg_rate_limiter c))
    MiddlewareMetrics_init.

Definition with_circuit_breaker (cb : CircuitBreaker) (m : ProductionMiddleware) :=
  mkProductionMiddleware (config m) cb (rate_limiter m) (metrics m).

Definition with_rate_limiter (rl : RateLimiter) (m : ProductionMiddleware) :=
  mkProductionMiddleware (config m) (circuit_breaker m) rl (metrics m).

Definition with_metrics (mt : MiddlewareMetrics) (m : ProductionMiddleware) :=
  mkProductionMiddleware (config m) (circuit_breaker m) (rate_limiter m) mt.

(** [ProductionMiddleware.reset] *)
Definition reset (m : ProductionMiddleware) : ProductionMiddleware :=
  with_metrics MiddlewareMetrics_init
    (with_circuit_breaker (cb_reset (circuit_breaker m)) m).

(** [record_cost] and [record_tokens_sent] *)
Definition record_cost (cost : Q) (m : ProductionMiddleware) :=
  with_metrics (set_total_cost (fun c => (c + cost)%Q) (metrics m)) m.

Definition record_tokens_sent (tokens : Z) (m : ProductionMiddleware) :=
  with_metrics (set_total_tokens_sent (fun n => n + tokens) (metrics m)) m.

(** What [_extract_tokens] reads of [result.usage]: the attribute
    [total_tokens], when there is one. *)
Record Usage : Set := mkUsage { total_tokens : option Z }.

Section Execute.
(** Python exceptions. Those the middleware raises itself, and the
    built-in ones its arithmetic and indexing can raise, are given as
    constructors of the same type, so that an exception of the operation
    that leaves [execute] is literally the value the operation raised. *)
Variable Exception : Type.
Variable CircuitOpenError : CircuitState -> Q -> Exception.
Variable RateLimitExceededError : option Q -> Exception.
Variable builtin : Builtin -> Exception.

(** Results of the wrapped operation; [usage_of r] is [result.usage] when
    the attribute exists and is truthy. *)
Variable Result : Type.
Variable usage_of : Result -> option Usage.

(** The error classifier of [opta.exceptions]. *)
Variable get_ex_info : Exception -> ExInfo.

Inductive Outcome (A : Type) : Type :=
| Returns (a : A)
| Raises (e : Exception).
Arguments Returns {A} a.
Arguments Raises {A} e.

(** The environment: the k-th reading of [time.time()], the k-th sample of
    [random.random()], and what the k-th invocation of the operation
    does. *)
Variable clock : nat -> Q.
Variable random : nat -> Q.
Variable func : nat -> Outcome Result.

Inductive Event : Type :=
| PrintAttemptFailed (attempt : Z) (e : Exception)
| PrintRetrying (delay : Q)
| Sleep (delay : Q).

Record World : Type := mkWorld {
  ticks : nat;
  draws : nat;
  calls : nat;
  events : list Event
}.

Definition world0 : World := mkWorld 0 0 0 [].

Definition St : Type := (ProductionMiddleware * World)%type.

(** State and exceptions: a computation runs from a state to an outcome
    and a state; the mutations made before a raise persist. *)
Definition M (A : Type) : Type := St -> Outcome A * St.

Definition ret {A} (a : A) : M A := fun s => (Returns a, s).

Definition raise {A} (e : Exception) : M A := fun s => (Raises e, s).

Definition bind {A B} (m : M A) (k : A -> M B) : M B :=
  fun s =>
    match m s with
    | (Returns a, s1) => k a s1
    | (Raises e, s1) => (Raises e, s1)
    end.

(** [try: m  except Exception as e: h e] *)
Definition try_except {A} (m : M A) (h : Exception -> M A) : M A :=
  fun s =>
    match m s with
    | (Returns a, s1) => (Returns a, s1)
    | (Raises e, s1) => h e s1
    end.

Notation "x <- m ;; k" := (bind m (fun x => k))
  (at level 61, m at next level, right associativity).
Notation "m ;;; k" := (bind m (fun _ => k))
  (at level 61, right associativity).

Definition time_time : M Q :=
  fun '(m, w) =>
    (Returns (clock (ticks w)),
     (m, mkWorld (S (ticks w)) (draws w) (calls w) (events w))).

Definition random_random : M Q :=
  fun '(m, w) =>
    (Returns (random (draws w)),
     (m, mkWorld (ticks w) (S (draws w)) (calls w) (events w))).

(** The call of the wrapped operation with the arguments of the caller. *)
Definition call_func : M Result :=
  fun '(m, w) =>
    (func (calls w),
     (m, mkWorld (ticks w) (draws w) (S (calls w)) (events w))).

Definition emit (ev : Event) : M unit :=
  fun '(m, w) =>
    (Returns tt, (m, mkWorld (ticks w) (draws w) (calls w) (events w ++ [ev]))).

Definition get_self : M ProductionMiddleware := fun '(m, w) => (Returns m, (m, w)).

Definition update_self (f : ProductionMiddleware -> ProductionMiddleware) : M unit :=
  fun '(m, w) => (Returns tt, (f m, w)).

Definition update_metrics (f : MiddlewareMetrics -> MiddlewareMetrics) : M unit :=
  update_self (fun m => with_metrics (f (metrics m)) m).

(** [self.circuit_breaker.state]: the clock is read only when the property
    evaluates [time.time()]. *)
Definition circuit_breaker_state : M CircuitState :=
  self <- get_self ;;
  if state_reads_clock (circuit_breaker self) then
    now <- time_time ;;
    let '(cb, st) := state now (circuit_breaker self) in
    update_self (with_circuit_breaker cb) ;;; ret st
  else
    let '(cb, st) := state 0 (circuit_breaker self) in
    update_self (with_circuit_breaker cb) ;;; ret st.

(** [self.circuit_breaker.can_execute()] *)
Definition circuit_breaker_can_execute : M bool :=
  self <- get_self ;;
  if state_reads_clock (circuit_breaker self) then
    now <- time_time ;;
    let '(cb, ok) := can_execute now (circuit_breaker self) in
    update_self (with_circuit_breaker cb) ;;; ret ok
  else
    let '(cb, ok) := can_execute 0 (circuit_breaker self) in
    update_self (with_circuit_breaker cb) ;;; ret ok.

Definition circuit_breaker_record_success : M unit :=
  update_self (fun m => with_circuit_breaker (record_success (circuit_breaker m)) m).

Definition circuit_breaker_record_failure : M unit :=
  now <- time_time ;;
  update_self (fun m => with_circuit_breaker (record_failure now (circuit_breaker m)) m).

(** [self.rate_limiter.can_proceed(estimated_tokens)] *)
Definition rate_limiter_can_proceed (estimated_tokens : Z) : M (bool * option Q) :=
  now <- time_time ;;
  self <- get_self ;;
  let '(rl, res) := can_proceed now estimated_tokens (rate_limiter self) in
  update_self (with_rate_limiter rl) ;;;
  match res with
  | Returned r => ret r
  | Raised e => raise (builtin e)
  end.

Definition rate_limiter_record_request (tokens_used : Z) : M unit :=
  now <- time_time ;;
  update_self (fun m => with_rate_limiter (record_request now tokens_used (rate_limiter m)) m).

(** [_extract_tokens] *)
Definition _extract_tokens (result : Result) : Z :=
  match usage_of result with
  | Some u => match total_tokens u with Some n => n | None => 0 end
  | None => 0
  end.

(** [self.retry_handler.calculate_delay(attempt)] *)
Definition retry_handler_calculate_delay (attempt : Z) : M Q :=
  self <- get_self ;;
  r <- random_random ;;
  match calculate_delay (cfg_retry (config self)) attempt r with
  | Returned d => ret d
  | Raised e => raise (builtin e)
  end.

(** The body of the [try] block of one attempt. *)
Definition attempt_body : M Result :=
  start_time <- time_time ;;
  result <- call_func ;;
  end_time <- time_time ;;
  let latency_ms := ((end_time - start_time) * 1000)%Q in
  circuit_breaker_record_success ;;;
  update_metrics (set_successful_requests (fun n => n + 1)) ;;;
  update_metrics (record_latency latency_ms) ;;;
  t <- time_time ;;
  update_metrics (set_last_request_time (Some t)) ;;;
  let tokens_used := _extract_tokens result in
  rate_limiter_record_request tokens_used ;;;
  (if tokens_used >? 0
   then update_metrics (set_total_tokens_received (fun n => n + tokens_used))
   else ret tt) ;;;
  ret result.

(** The [except Exception as e] handler of one attempt: it re-raises [e]
    or returns for the loop to go on. *)
Definition attempt_handler (attempt : Z) (e : Exception) : M unit :=
  self <- get_self ;;
  (if verbose (config self) then emit (PrintAttemptFailed attempt e) else ret tt) ;;;
  if negb (should_retry Exception get_ex_info (cfg_retry (config self)) attempt e)
  then
    circuit_breaker_record_failure ;;;
    update_metrics (set_failed_requests (fun n => n + 1)) ;;;
    raise e
  else
    update_metrics (set_retried_requests (fun n => n + 1)) ;;;
    delay <- retry_handler_calculate_delay attempt ;;
    (if verbose (config self) then emit (PrintRetrying delay) else ret tt) ;;;
    emit (Sleep delay).

(** [for attempt in range(max_retries + 1)] and the code after the loop.
    The result [None] is the [None] the method returns when it falls off
    its end. *)
Fixpoint attempts_loop (attempts : list Z) (last_exception : option Exception)
  : M (option Result) :=
  match attempts with
  | [] =>
      circuit_breaker_record_failure ;;;
      update_metrics (set_failed_requests (fun n => n + 1)) ;;;
      match last_exception with
      | Some e => raise e
      | None => ret None
      end
  | attempt :: rest =>
      step <- try_except
                (result <- attempt_body ;; ret (inl result))
                (fun e => attempt_handler attempt e ;;; ret (inr e)) ;;
      match step with
      | inl result => ret (Some result)
      | inr e => attempts_loop rest (Some e)
      end
  end.

(** [range(n)] *)
Definition py_range (n : Z) : list Z := map Z.of_nat (seq 0 (Z.to_nat n)).

(** [execute] *)
Definition execute (estimated_tokens : Z) : M (option Result) :=
  self <- get_self ;;
  if negb (enabled (config self)) then
    result <- call_func ;; ret (Some result)
  else
    update_metrics (set_total_requests (fun n => n + 1)) ;;;
    ok <- circuit_breaker_can_execute ;;
    if negb ok then
      update_metrics (set_circuit_breaker_rejections (fun n => n + 1)) ;;;
      st <- circuit_breaker_state ;;
      raise (CircuitOpenError st (recovery_timeout (cfg_circuit_breaker (config self))))
    else
      r <- rate_limiter_can_proceed estimated_tokens ;;
      let '(can, wait_time) := r in
      if negb can then
        update_metrics (set_rate_limit_rejections (fun n => n + 1)) ;;;
        raise (RateLimitExceededError wait_time)
      else
        attempts_loop (py_range (max_retries (cfg_retry (config self)) + 1)) None.

(** [execute] called [n] times in a row, whatever each call returns or
    raises: the state after the last call. *)
Fixpoint execute_times (n : nat) (estimated_tokens : Z) (s : St) : St :=
  match n with
  | O => s
  | S k => execute_times k estimated_tokens (snd (execute estimated_tokens s))
  end.

(** The admission checks of [execute] on their own: the state after
    counting the request, asking the breaker and asking the limiter, with
    the two answers. *)
Definition admission (estimated_tokens : Z) : M (bool * (bool * option Q)) :=
  update_metrics (set_total_requests (fun n => n + 1)) ;;;
  ok <- circuit_breaker_can_execute ;;
  r <- rate_limiter_can_proceed estimated_tokens ;;
  ret (ok, r).
(** [get_metrics] *)
Definition get_metrics (m : ProductionMiddleware) : list (String.string * PyValue) :=
  to_dict (metrics m).

(** [get_status]: the items are evaluated in the order of the literal, the
    state of the breaker through its property. *)
Definition get_status : M (list (String.string * StatusValue)) :=
  self <- get_self ;;
  st <- circuit_breaker_state ;;
  self' <- get_self ;;
  ret [("enabled"%string, Plain (PyBool (enabled (config self))));
       ("circuit_breaker_state"%string, Plain (PyStr (CircuitState_value st)));
       ("metrics"%string, Nested (get_metrics self'))].

(** The delays slept, in order. *)
Fixpoint slept (evs : list Event) : list Q :=
  match evs with
  | [] => []
  | Sleep d :: rest => d :: slept rest
  | _ :: rest => slept rest
  end.

(** The world after one more reading of the clock, and the world after the
    breaker was asked for its state, which reads the clock or not. *)
Definition tick (w : World) : World :=
  mkWorld (S (ticks w)) (draws w) (calls w) (events w).

Definition asked (m : ProductionMiddleware) (w : World) : World :=
  if state_reads_clock (circuit_breaker m) then tick w else w.

(** The middleware with which the loop of attempts begins, after both
    checks. *)
Definition let_through (estimated_tokens : Z) (m : ProductionMiddleware) (w : World)
  : ProductionMiddleware :=
  with_rate_limiter
    (fst (can_proceed (clock (ticks (asked m w))) estimated_tokens (rate_limiter m)))
    (with_circuit_breaker (fst (can_execute (clock (ticks w)) (circuit_breaker m)))
       (with_metrics (set_total_requests (fun n => n + 1) (metrics m)) m)).

(** The middleware after a successful attempt that began with the clock at
    its reading [k]: the bookkeeping of the [try] block. *)
Definition after_success (k : nat) (result : Result) (m : ProductionMiddleware)
  : ProductionMiddleware :=
  let tokens_used := _extract_tokens result in
  let latency_ms := ((clock (S k) - clock k) * 1000)%Q in
  let mt := set_last_request_time (Some (clock (S (S k))))
              (record_latency latency_ms
                 (set_successful_requests (fun n => n + 1) (metrics m))) in
  mkProductionMiddleware (config m)
    (record_success (circuit_breaker m))
    (record_request (clock (S (S (S k)))) tokens_used (rate_limiter m))
    (if tokens_used >? 0
     then set_total_tokens_received (fun n => n + tokens_used) mt
     else mt).

(** The events of a retry: the two messages when verbose, and the sleep. *)
Definition retry_events (verbose_on : bool) (attempt : Z) (e : Exception) (d : Q)
  : list Event :=
  (if verbose_on then [PrintAttemptFailed attempt e] else [])
  ++ (if verbose_on then [PrintRetrying d] else [])
  ++ [Sleep d].

(** A computation is framed by a relation when every run of it, returning
    or raising, takes a state to a related state. *)
Definition framed {A} (R : St -> St -> Prop) (c : M A) : Prop :=
  forall s o s', c s = (o, s') -> R s s'.

(** What the admission checks and the bookkeeping of a request leave as
    they found it. *)
Definition same_accounts (s s' : St) : Prop :=
  config (fst s') = config (fst s) /\
  _failure_count (circuit_breaker (fst s')) = _failure_count (circuit_breaker (fst s)) /\
  metrics (fst s') = metrics (fst s) /\
  calls (snd s') = calls (snd s) /\
  events (snd s') = events (snd s).
End Execute.

Arguments Returns {Exception A} a.
Arguments Raises {Exception A} e.
Arguments ret {Exception A} a s.
Arguments raise {Exception A} e s.
Arguments bind {Exception A B} m k s.
Arguments try_except {Exception A} m h s.
Arguments framed {Exception A} R c.
Arguments same_accounts {Exception} s s'.
Arguments mkWorld {Exception} ticks draws calls events.
Arguments ticks {Exception} w.
Arguments draws {Exception} w.
Arguments calls {Exception} w.
Arguments events {Exception} w.
Arguments world0 {Exception}.
Arguments slept {Exception} evs.
Arguments tick {Exception} w.
Arguments asked {Exception} m w.
Arguments retry_events {Exception} verbose_on attempt e d.
Arguments PrintAttemptFailed {Exception} attempt e.
Arguments PrintRetrying {Exception} delay.
Arguments Sleep {Exception} delay.

(** ** A concrete environment

    Exceptions, results, a classifier, a clock, a source of samples and an
    operation, to run the orchestrator on. *)

Inductive PyException : Type :=
| PyCircuitOpenError (st : CircuitState) (timeout : Q)
| PyRateLimitExceededError (wait_time : option Q)
| PyBuiltin (e : Builtin)
| PyAuthenticationError
| PyTimeout.

(** Authentication errors are not retried, timeouts are, and the classifier
    has no verdict on the rest. *)
Definition py_get_ex_info (e : PyException) : ExInfo :=
  match e with
  | PyAuthenticationError => mkExInfo (Some false)
  | PyTimeout => mkExInfo (Some true)
  | _ => mkExInfo None
  end.

Definition py_clock (k : nat) : Q := inject_Z (1000 + Z.of_nat k).

Definition py_random (k : nat) : Q := 1 # 2.

(** An operation that always raises an authentication error. *)
Definition py_failing_func (k : nat) : Outcome PyException (option Usage) :=
  Raises PyAuthenticationError.

Definition py_execute (func : nat -> Outcome PyException (option Usage)) :=
  execute PyException PyCircuitOpenError PyRateLimitExceededError PyBuiltin
    (option Usage) (fun r => r) py_get_ex_info
    py_clock py_random func.

(** An operation that always returns, without usage. *)
Definition py_returning_func (k : nat) : Outcome PyException (option Usage) :=
  Returns None.

(** An operation that times out twice and then returns. *)
Definition py_flaky_func (k : nat) : Outcome PyException (option Usage) :=
  if (k <? 2)%nat then Raises PyTimeout else Returns None.

(** A middleware whose breaker opened at time 999, and one whose limiter,
    with a cap of one request, has a request logged at time 999. *)
Definition py_middleware_open : ProductionMiddleware :=
  let m := ProductionMiddleware_init
             (mkMiddlewareConfig (mkCircuitBreakerConfig 1 30 3 2)
                default_RateLimiterConfig default_RetryConfig true false) in
  with_circuit_breaker (record_failure 999 (circuit_breaker m)) m.

Definition py_middleware_limited : ProductionMiddleware :=
  let m := ProductionMiddleware_init
             (mkMiddlewareConfig default_CircuitBreakerConfig
                (mkRateLimiterConfig 1 100000 (float_lit 1 1)) default_RetryConfig true false) in
  with_rate_limiter (record_request 999 0 (rate_limiter m)) m.

(** * Properties *)

(** ** Comparisons, [max], [min] and [int] *)

Lemma Qltb_true_iff (a b : Q) : Qltb a b = true <-> (a < b)%Q.
Proof.
  unfold Qltb. rewrite Qlt_alt. destruct (a ?= b)%Q; split; congruence.
Qed.

Lemma Qltb_false_iff (a b : Q) : Qltb a b = false <-> (b <= a)%Q.
Proof.
  split; intro H.
  - apply Qnot_lt_le. intro L. apply Qltb_true_iff in L. congruence.
  - destruct (Qltb a b) eqn:E; trivial.
    apply Qltb_true_iff in E. exfalso. exact (Qlt_not_le _ _ E H).
Qed.

Lemma Qgeb_true_iff (a b : Q) : Qgeb a b = true <-> (b <= a)%Q.
Proof. unfold Qgeb. apply Qle_bool_iff. Qed.

Lemma Qgeb_false_iff (a b : Q) : Qgeb a b = false <-> (a < b)%Q.
Proof.
  split; intro H.
  - apply Qnot_le_lt. intro L. apply Qgeb_true_iff in L. congruence.
  - destruct (Qgeb a b) eqn:E; trivial.
    apply Qgeb_true_iff in E. exfalso. exact (Qlt_not_le _ _ H E).
Qed.

Lemma py_max_Qmax (a b : Q) : py_max a b = Qmax a b.
Proof.
  unfold py_max, Qltb, Qmax, GenericMinMax.gmax. destruct (a ?= b)%Q; reflexivity.
Qed.

Lemma py_min_Qmin (a b : Q) : py_min a b = Qmin a b.
Proof.
  unfold py_min, Qltb, Qmin, GenericMinMax.gmin.
  rewrite <- (Qcompare_antisym a b). destruct (a ?= b)%Q; reflexivity.
Qed.

Lemma py_max_l (a b : Q) : (a <= py_max a b)%Q.
Proof.
  unfold py_max. destruct (Qltb a b) eqn:E.
  - apply Qltb_true_iff in E. apply Qlt_le_weak, E.
  - apply Qle_refl.
Qed.








(** On a non-negative float [int] is the floor. *)
Lemma Qpower_2_nonneg (e : Z) : 0 <= e -> (2 ^ e == inject_Z (2 ^ e))%Q.
Proof. intro H. rewrite (Zpower_Qpower 2 e H). reflexivity. Qed.

Lemma Qpower_2_neg (e : Z) : e < 0 -> (2 ^ e == / inject_Z (2 ^ (- e)))%Q.
Proof.
  intro H. replace e with (- - e) at 1 by lia.
  rewrite Qpower_opp, Qpower_2_nonneg by lia. reflexivity.
Qed.

(** On a finite float that is not negative [int] is the floor. *)
Lemma py_int_floor (m : positive) (e : Z) :
  py_int (S754_finite false m e)
  = Returned (Qfloor (float_to_Q (S754_finite false m e))).
Proof.
  unfold py_int, float_to_Q. cbn [cond_Zopp]. f_equal.
  destruct (e >=? 0) eqn:E.
  - apply Z.geb_le in E.
    rewrite (Qfloor_comp _ (inject_Z (Zpos m * 2 ^ e))).
    + symmetry. apply Qfloor_Z.
    + rewrite Qpower_2_nonneg by exact E. rewrite inject_Z_mult. reflexivity.
  - rewrite Z.geb_leb in E. apply Z.leb_gt in E.
    assert (Hp : 0 < 2 ^ (- e)) by (apply Z.pow_pos_nonneg; lia).
    destruct (2 ^ (- e)) as [|p|p] eqn:P; try lia.
    rewrite (Qfloor_comp _ (Zpos m # p)).
    + reflexivity.
    + rewrite Qpower_2_neg by exact E. rewrite P.
      rewrite (Qmake_Qdiv (Zpos m) p). reflexivity.
Qed.

(** ** Circuit breaker *)

Lemma record_failures_app (l1 l2 : list Q) (self : CircuitBreaker) :
  record_failures (l1 ++ l2) self = record_failures l2 (record_failures l1 self).
Proof.
  revert self. induction l1 as [|t l1 IH]; intro self; simpl; [reflexivity | apply IH].
Qed.

(** Failures recorded on a breaker that is not HALF_OPEN: the count grows by
    one per call, the configuration stays and the breaker does not become
    HALF_OPEN. *)
Lemma record_failures_count (times : list Q) (self : CircuitBreaker) :
  _state self <> HALF_OPEN ->
  let self' := record_failures times self in
  cb_config self' = cb_config self /\
  _failure_count self' = _failure_count self + Z.of_nat (length times) /\
  _state self' <> HALF_OPEN.
Proof.
  revert self. induction times as [|t times IH]; intros self H; simpl.
  - repeat split; [lia | exact H].
  - assert (H1 : _state (record_failure t self) <> HALF_OPEN).
    { unfold record_failure; simpl. destruct (_state self); try congruence.
      destruct (_ >=? _); congruence. }
    destruct (IH _ H1) as (Hc & Hf & Hs). repeat split.
    + rewrite Hc. reflexivity.
    + rewrite Hf. unfold record_failure; simpl. lia.
    + exact Hs.
Qed.

(** A read of the state of a HALF_OPEN breaker changes nothing. *)
Lemma state_half_open (self : CircuitBreaker) (now : Q) :
  _state self = HALF_OPEN -> state now self = (self, HALF_OPEN).
Proof. intro H. unfold state. rewrite H. reflexivity. Qed.

Lemma state_closed (self : CircuitBreaker) (now : Q) :
  _state self = CLOSED -> state now self = (self, CLOSED).
Proof. intro H. unfold state. rewrite H. reflexivity. Qed.

(** The read of an OPEN breaker before the recovery timeout. *)
Lemma state_open_early (self : CircuitBreaker) (t now : Q) :
  _state self = OPEN -> _last_failure_time self = Some t ->
  (now - t < recovery_timeout (cb_config self))%Q ->
  state now self = (self, OPEN).
Proof.
  intros Hs Ht Hlt. unfold state. rewrite Hs, Ht.
  apply Qgeb_false_iff in Hlt. rewrite Hlt, andb_false_r. reflexivity.
Qed.

(** The read of an OPEN breaker once the recovery timeout has passed. *)
Lemma state_open_late (self : CircuitBreaker) (t now : Q) :
  _state self = OPEN -> _last_failure_time self = Some t -> ~ (t == 0)%Q ->
  (recovery_timeout (cb_config self) <= now - t)%Q ->
  state now self =
    (mkCircuitBreaker (cb_config self) HALF_OPEN (_failure_count self) 0 (Some t) 0,
     HALF_OPEN).
Proof.
  intros Hs Ht Hnz Hle. unfold state. rewrite Hs, Ht.
  apply Qgeb_true_iff in Hle. rewrite Hle.
  destruct (Qeq_bool t 0) eqn:E; [apply Qeq_bool_iff in E; contradiction|].
  reflexivity.
Qed.

(** Case analysis on the tests a breaker method makes. *)
Ltac cb_tests :=
  repeat match goal with
         | |- context [if ?b then _ else _] => destruct b
         | |- context [match ?o with Some _ => _ | None => _ end] => destruct o
         end.

(** Every call keeps the breaker well formed. *)
Lemma cb_call_wf (c : CBCall) (self : CircuitBreaker) : cb_wf self -> cb_wf (cb_call c self).
Proof.
  unfold cb_wf. destruct self as [cfg st fc sc lft hoc]. simpl.
  intros (Hf & Hs & Hh & Hl).
  destruct c as [now|now| |now| ];
    unfold cb_call, can_execute, state, record_success, record_failure, cb_reset;
    simpl; destruct st; simpl; cb_tests; simpl;
    repeat split; try lia; try congruence; auto.
Qed.

Lemma cb_init_wf (c : CircuitBreakerConfig) : cb_wf (CircuitBreaker_init c).
Proof. unfold cb_wf; simpl. repeat split; try lia; congruence. Qed.

(** Every breaker reached from a fresh one by a sequence of calls is well
    formed: its counters are not negative and, once it has left CLOSED, its
    last failure time is set. *)
Lemma cb_calls_wf (cs : list CBCall) (c : CircuitBreakerConfig) :
  cb_wf (cb_calls cs (CircuitBreaker_init c)).
Proof.
  unfold cb_calls. generalize (cb_init_wf c). generalize (CircuitBreaker_init c).
  induction cs as [|x cs IH]; intros self H; simpl; [exact H|].
  apply IH, cb_call_wf, H.
Qed.

(** [can_execute] on a HALF_OPEN breaker: a trial call is allowed, and
    counted, while fewer than [half_open_max_calls] were issued. *)
Lemma can_execute_half_open (self : CircuitBreaker) (now : Q) :
  _state self = HALF_OPEN ->
  can_execute now self =
    if _half_open_calls self <? half_open_max_calls (cb_config self)
    then (mkCircuitBreaker (cb_config self) HALF_OPEN (_failure_count self)
            (_success_count self) (_last_failure_time self)
            (_half_open_calls self + 1), true)
    else (self, false).
Proof.
  intro H. unfold can_execute. rewrite (state_half_open self now H), H. reflexivity.
Qed.

Lemma can_execute_calls_half_open (times : list Q) (self : CircuitBreaker) :
  _state self = HALF_OPEN ->
  let r := can_execute_calls times self in
  _state (fst r) = HALF_OPEN /\
  cb_config (fst r) = cb_config self /\
  _half_open_calls (fst r) =
    Z.max (_half_open_calls self)
      (Z.min (half_open_max_calls (cb_config self))
         (_half_open_calls self + Z.of_nat (length times))) /\
  length (snd r) = length times /\
  forall i, (i < length times)%nat ->
    nth i (snd r) false =
      (_half_open_calls self + Z.of_nat i <? half_open_max_calls (cb_config self)).
Proof.
  revert self. induction times as [|t times IH]; intros self H.
  - simpl. repeat split; auto; try lia; intros i Hi; inversion Hi.
  - cbn [can_execute_calls]. rewrite (can_execute_half_open self t H).
    destruct (_half_open_calls self <? half_open_max_calls (cb_config self)) eqn:E.
    + match goal with |- context [can_execute_calls times ?s] => set (s1 := s) end.
      assert (H1 : _state s1 = HALF_OPEN) by reflexivity.
      specialize (IH s1 H1). destruct (can_execute_calls times s1) as [s2 bs].
      cbn [fst snd] in *. destruct IH as (I1 & I2 & I3 & I4 & I5).
      subst s1. cbn [cb_config _half_open_calls] in *.
      apply Z.ltb_lt in E. repeat split; auto.
      * rewrite I3. cbn [length]. lia.
      * cbn [length]. lia.
      * intros [|i] Hi; cbn [nth].
        -- symmetry. apply Z.ltb_lt. lia.
        -- rewrite I5 by (cbn [length] in Hi; lia). f_equal. lia.
    + specialize (IH self H). destruct (can_execute_calls times self) as [s2 bs].
      cbn [fst snd] in *. destruct IH as (I1 & I2 & I3 & I4 & I5).
      apply Z.ltb_ge in E. repeat split; auto.
      * rewrite I3. cbn [length]. lia.
      * cbn [length]. lia.
      * intros [|i] Hi; cbn [nth].
        -- symmetry. apply Z.ltb_ge. lia.
        -- rewrite I5 by (cbn [length] in Hi; lia).
           transitivity false; [apply Z.ltb_ge | symmetry; apply Z.ltb_ge]; lia.
Qed.

(** Successes recorded on a HALF_OPEN breaker below the threshold. *)
Lemma record_successes_half_open (j : nat) (self : CircuitBreaker) :
  _state self = HALF_OPEN ->
  _success_count self + Z.of_nat j < success_threshold (cb_config self) ->
  let self' := record_successes j self in
  _state self' = HALF_OPEN /\
  cb_config self' = cb_config self /\
  _success_count self' = _success_count self + Z.of_nat j /\
  _failure_count self' = _failure_count self.
Proof.
  revert self. induction j as [|j IH]; intros self H Hlt.
  - simpl. repeat split; auto; lia.
  - cbn [record_successes].
    assert (E : record_success self =
                mkCircuitBreaker (cb_config self) HALF_OPEN (_failure_count self)
                  (_success_count self + 1) (_last_failure_time self)
                  (_half_open_calls self)).
    { unfold record_success. rewrite H.
      destruct (_success_count self + 1 >=? success_threshold (cb_config self)) eqn:E;
        [apply Z.geb_le in E; lia | reflexivity]. }
    rewrite E. match goal with |- context [record_successes j ?s] => set (s1 := s) end.
    destruct (IH s1 eq_refl) as (I1 & I2 & I3 & I4).
    { subst s1. cbn [_success_count cb_config]. lia. }
    subst s1. cbn [_success_count cb_config _failure_count] in *.
    repeat split; auto. lia.
Qed.

Lemma record_successes_snoc (j : nat) (self : CircuitBreaker) :
  record_successes (S j) self = record_success (record_successes j self).
Proof.
  revert self. induction j as [|j IH]; intro self; [reflexivity|].
  change (record_successes (S (S j)) self)
    with (record_successes (S j) (record_success self)).
  rewrite IH. reflexivity.
Qed.

(** C3. On a CLOSED breaker every [record_failure] adds one to the failure
    count and every [record_success] takes one off it without going below
    zero, leaving the breaker CLOSED; and a CLOSED breaker on which
    [failure_threshold] failures are recorded in a row is OPEN, with the
    last failure time set to the time of the last of them (so that a read
    of the state before the recovery timeout answers OPEN). *)
Theorem closed_breaker_failures_and_successes :
  forall self : CircuitBreaker,
    _state self = CLOSED ->
    (forall now, _failure_count (record_failure now self) = _failure_count self + 1) /\
    (_state (record_success self) = CLOSED /\
     _failure_count (record_success self) = Z.max 0 (_failure_count self - 1) /\
     0 <= _failure_count (record_success self) /\
     (0 < _failure_count self ->
      _failure_count (record_success self) = _failure_count self - 1)) /\
    (forall (times : list Q) (t_last : Q),
        0 <= _failure_count self ->
        Z.of_nat (length (times ++ [t_last])) = failure_threshold (cb_config self) ->
        let self' := record_failures (times ++ [t_last]) self in
        _state self' = OPEN /\
        _last_failure_time self' = Some t_last /\
        forall now, (now - t_last < recovery_timeout (cb_config self))%Q ->
                    state now self' = (self', OPEN)).
Proof.
  intros self H. split; [|split].
  - intro now. reflexivity.
  - unfold record_success. rewrite H. cbn [_state _failure_count].
    repeat split; lia.
  - intros times t_last Hfc Hlen self'.
    assert (Hne : _state self <> HALF_OPEN) by congruence.
    destruct (record_failures_count times self Hne) as (Hc & Hf & Hs).
    assert (E : self' = record_failure t_last (record_failures times self)).
    { subst self'. rewrite record_failures_app. reflexivity. }
    rewrite length_app in Hlen. cbn [length] in Hlen.
    assert (Hst : _state self' = OPEN).
    { rewrite E. unfold record_failure. cbn [_state].
      destruct (_state (record_failures times self)); try congruence.
      rewrite Hc, Hf.
      destruct (_ >=? _) eqn:G; [reflexivity|]. rewrite Z.geb_leb in G.
      apply Z.leb_gt in G. lia. }
    assert (Hlt : _last_failure_time self' = Some t_last) by (rewrite E; reflexivity).
    assert (Hcfg : cb_config self' = cb_config self) by (rewrite E; exact Hc).
    repeat split; auto.
    intros now Hnow. apply (state_open_early self' t_last now Hst Hlt).
    rewrite Hcfg. exact Hnow.
Qed.

Lemma closed_breaker_failures_and_successes_witness :
  _state (record_failures [1%Q; 2%Q; 3%Q; 4%Q; 5%Q]
            (CircuitBreaker_init default_CircuitBreakerConfig)) = OPEN.
Proof.
  destruct (closed_breaker_failures_and_successes
              (CircuitBreaker_init default_CircuitBreakerConfig) eq_refl)
    as (_ & _ & H).
  destruct (H [1%Q; 2%Q; 3%Q; 4%Q] 5%Q) as (H1 & _).
  - simpl. lia.
  - reflexivity.
  - exact H1.
Defined.

(** C4. A read of the state of an OPEN breaker whose last failure is at least
    [recovery_timeout] old moves it to HALF_OPEN and sets the trial-call
    and success counters to zero, leaving the rest; a read of the state of
    a HALF_OPEN breaker answers HALF_OPEN and changes nothing, at whatever
    time; and while the last failure is younger than [recovery_timeout] the
    read answers OPEN, changes nothing, and [can_execute] answers false.
    The last failure time is a reading of the clock, hence not the number
    zero, which Python takes for an unset time. *)
Theorem open_breaker_half_opens_once :
  forall (self : CircuitBreaker) (t now : Q),
    _state self = OPEN ->
    _last_failure_time self = Some t ->
    ~ (t == 0)%Q ->
    ((recovery_timeout (cb_config self) <= now - t)%Q ->
     let self' := fst (state now self) in
     snd (state now self) = HALF_OPEN /\
     self' = mkCircuitBreaker (cb_config self) HALF_OPEN (_failure_count self)
               0 (Some t) 0 /\
     forall later, state later self' = (self', HALF_OPEN)) /\
    (forall (other : CircuitBreaker) (later : Q),
        _state other = HALF_OPEN -> state later other = (other, HALF_OPEN)) /\
    ((now - t < recovery_timeout (cb_config self))%Q ->
     state now self = (self, OPEN) /\ can_execute now self = (self, false)).
Proof.
  intros self t now Hs Ht Hnz. split; [|split].
  - intros Hle self'. subst self'.
    rewrite (state_open_late self t now Hs Ht Hnz Hle). cbn [fst snd].
    split; [reflexivity|]. split; [reflexivity|].
    intro later. apply state_half_open. reflexivity.
  - intros other later Ho. apply state_half_open, Ho.
  - intro Hlt. pose proof (state_open_early self t now Hs Ht Hlt) as E.
    split; [exact E|]. unfold can_execute. rewrite E. reflexivity.
Qed.

Lemma open_breaker_half_opens_once_witness :
  snd (state 131%Q (record_failure 100%Q
                      (mkCircuitBreaker default_CircuitBreakerConfig CLOSED 4 0 None 0)))
  = HALF_OPEN.
Proof.
  destruct (open_breaker_half_opens_once
              (record_failure 100%Q
                 (mkCircuitBreaker default_CircuitBreakerConfig CLOSED 4 0 None 0))
              100%Q 131%Q eq_refl eq_refl) as (H & _).
  - intro E. discriminate E.
  - destruct H as (H1 & _).
    + unfold Qle. simpl. lia.
    + exact H1.
Defined.

(** C5. On a HALF_OPEN breaker [can_execute] allows a call, and counts it,
    exactly while fewer than [half_open_max_calls] trial calls were issued
    in the cycle: in a run of calls the one of index [i] is allowed when
    the calls issued before plus [i] stay below the cap (from the start of
    a cycle: the first [half_open_max_calls] calls), the later ones are
    refused, and the breaker stays HALF_OPEN. Successes that keep the
    success count of the cycle below [success_threshold] leave the breaker
    HALF_OPEN and the success that brings it to [success_threshold] closes
    the breaker and sets the failure count to zero; the count is zero at
    the start of a cycle, so that exactly [success_threshold] successes in
    a row close it. One [record_failure] opens the breaker, whatever
    number of successes came before. *)
Theorem half_open_trials_successes_and_failure :
  forall self : CircuitBreaker,
    _state self = HALF_OPEN ->
    (forall now,
        can_execute now self =
          if _half_open_calls self <? half_open_max_calls (cb_config self)
          then (mkCircuitBreaker (cb_config self) HALF_OPEN (_failure_count self)
                  (_success_count self) (_last_failure_time self)
                  (_half_open_calls self + 1), true)
          else (self, false)) /\
    (forall times : list Q,
        let r := can_execute_calls times self in
        _state (fst r) = HALF_OPEN /\
        length (snd r) = length times /\
        forall i, (i < length times)%nat ->
          nth i (snd r) false =
            (_half_open_calls self + Z.of_nat i
               <? half_open_max_calls (cb_config self))) /\
    (forall k : nat,
        _success_count self + Z.of_nat (S k) = success_threshold (cb_config self) ->
        (forall j, (j <= k)%nat -> _state (record_successes j self) = HALF_OPEN) /\
        _state (record_successes (S k) self) = CLOSED /\
        _failure_count (record_successes (S k) self) = 0) /\
    (forall now, _state (record_failure now self) = OPEN) /\
    (forall (j : nat) (now : Q),
        _state (record_successes j self) = HALF_OPEN ->
        _state (record_failure now (record_successes j self)) = OPEN).
Proof.
  intros self H. split; [|split; [|split; [|split]]].
  - intro now. apply can_execute_half_open, H.
  - intros times r.
    destruct (can_execute_calls_half_open times self H) as (I1 & _ & _ & I4 & I5).
    repeat split; assumption.
  - intros k Hthr.
    assert (Hk : forall j, (j <= k)%nat ->
              _success_count self + Z.of_nat j < success_threshold (cb_config self))
      by (intros j Hj; lia).
    assert (Hclose : let s := record_successes (S k) self in
                     _state s = CLOSED /\ _failure_count s = 0).
    { rewrite record_successes_snoc.
      destruct (record_successes_half_open k self H (Hk k (Nat.le_refl k)))
        as (I1 & I2 & I3 & I4).
      unfold record_success. rewrite I1, I2, I3.
      destruct (_ >=? _) eqn:G; [split; reflexivity|].
      rewrite Z.geb_leb in G. apply Z.leb_gt in G. lia. }
    split; [|exact Hclose].
    intros j Hj. apply (record_successes_half_open j self H (Hk j Hj)).
  - intro now. unfold record_failure. rewrite H. reflexivity.
  - intros j now Hj. unfold record_failure. rewrite Hj. reflexivity.
Qed.

Lemma half_open_trials_successes_and_failure_witness :
  snd (can_execute_calls [1%Q; 2%Q; 3%Q; 4%Q; 5%Q]
         (mkCircuitBreaker default_CircuitBreakerConfig HALF_OPEN 5 0 (Some 1%Q) 0))
  = [true; true; true; false; false] /\
  _state (record_successes 2
            (mkCircuitBreaker default_CircuitBreakerConfig HALF_OPEN 5 0 (Some 1%Q) 0))
  = CLOSED.
Proof.
  destruct (half_open_trials_successes_and_failure
              (mkCircuitBreaker default_CircuitBreakerConfig HALF_OPEN 5 0 (Some 1%Q) 0)
              eq_refl) as (_ & _ & H & _).
  split; [reflexivity|].
  destruct (H 1%nat eq_refl) as (_ & H1 & _). exact H1.
Defined.

(** A breaker that was reset is a fresh breaker with the same
    configuration. *)
Lemma cb_reset_fresh (self : CircuitBreaker) :
  cb_reset self = CircuitBreaker_init (cb_config self).
Proof. reflexivity. Qed.

(** C10. [record_failure] on an OPEN breaker leaves it OPEN, adds one to the
    failure count and sets the last failure time to the time of the call;
    from then on a read of the state, and [can_execute], answer OPEN and
    false until [recovery_timeout] has passed since that call, whatever the
    earlier last failure time was, and a read after that answers
    HALF_OPEN. *)
Theorem failure_while_open_restarts_recovery :
  forall (self : CircuitBreaker) (t : Q),
    _state self = OPEN ->
    let self' := record_failure t self in
    _state self' = OPEN /\
    _failure_count self' = _failure_count self + 1 /\
    _last_failure_time self' = Some t /\
    (forall now, (now - t < recovery_timeout (cb_config self))%Q ->
                 state now self' = (self', OPEN) /\
                 can_execute now self' = (self', false)) /\
    (forall now, ~ (t == 0)%Q ->
                 (recovery_timeout (cb_config self) <= now - t)%Q ->
                 snd (state now self') = HALF_OPEN).
Proof.
  intros self t H self'.
  assert (Hs : _state self' = OPEN) by (unfold self', record_failure; rewrite H; reflexivity).
  assert (Ht : _last_failure_time self' = Some t) by reflexivity.
  split; [exact Hs|]. split; [reflexivity|]. split; [exact Ht|]. split.
  - intros now Hlt. split.
    + apply (state_open_early self' t now Hs Ht). assumption.
    + unfold can_execute.
      rewrite (state_open_early self' t now Hs Ht) by assumption. reflexivity.
  - intros now Hnz Hle.
    rewrite (state_open_late self' t now Hs Ht Hnz Hle). reflexivity.
Qed.

Lemma failure_while_open_restarts_recovery_witness :
  state 131%Q (record_failure 110%Q
                 (mkCircuitBreaker default_CircuitBreakerConfig OPEN 5 0 (Some 100%Q) 0))
  = (record_failure 110%Q
       (mkCircuitBreaker default_CircuitBreakerConfig OPEN 5 0 (Some 100%Q) 0), OPEN)
  /\ snd (state 131%Q
            (mkCircuitBreaker default_CircuitBreakerConfig OPEN 5 0 (Some 100%Q) 0))
     = HALF_OPEN.
Proof.
  destruct (failure_while_open_restarts_recovery
              (mkCircuitBreaker default_CircuitBreakerConfig OPEN 5 0 (Some 100%Q) 0)
              110%Q eq_refl) as (_ & _ & _ & H & _).
  split; [|reflexivity].
  destruct (H 131%Q) as (H1 & _).
  - unfold Qlt. simpl. lia.
  - exact H1.
Defined.

(** ** Rate limiter *)

Lemma sum_tokens_acc (dq : list (Q * Z)) (acc : Z) :
  fold_left (fun a e => a + snd e) dq acc = acc + sum_tokens dq.
Proof.
  unfold sum_tokens. revert acc. induction dq as [|e dq IH]; intro acc; simpl; [lia|].
  rewrite IH, (IH (snd e)). lia.
Qed.

Lemma sum_tokens_cons (e : Q * Z) (dq : list (Q * Z)) :
  sum_tokens (e :: dq) = snd e + sum_tokens dq.
Proof. unfold sum_tokens at 1. simpl. apply sum_tokens_acc. Qed.

(** Pruning removes a log whose entries are all older than the window. *)
Lemma prune_requests_all_old (ws : Q) (dq : list Q) :
  (forall t, In t dq -> (t < ws)%Q) -> prune_requests ws dq = [].
Proof.
  induction dq as [|t dq IH]; intro H; simpl; [reflexivity|].
  assert (E : Qltb t ws = true) by (apply Qltb_true_iff, H; left; reflexivity).
  rewrite E. apply IH. intros u Hu. apply H. right. exact Hu.
Qed.

Lemma prune_tokens_all_old (ws : Q) (dq : list (Q * Z)) :
  (forall e, In e dq -> (fst e < ws)%Q) -> prune_tokens ws dq = [].
Proof.
  induction dq as [|e dq IH]; intro H; simpl; [reflexivity|].
  assert (E : Qltb (fst e) ws = true) by (apply Qltb_true_iff, H; left; reflexivity).
  rewrite E. apply IH. intros u Hu. apply H. right. exact Hu.
Qed.

(** What pruning leaves is a suffix of the log. *)
Lemma prune_requests_suffix (ws : Q) (dq : list Q) :
  exists old, dq = old ++ prune_requests ws dq /\ forall t, In t old -> (t < ws)%Q.
Proof.
  induction dq as [|t dq (old & E & H)]; simpl.
  - exists []. split; [reflexivity | intros t []].
  - destruct (Qltb t ws) eqn:L.
    + exists (t :: old). split; [simpl; f_equal; exact E|].
      intros u [<-|Hu]; [apply Qltb_true_iff, L | apply H, Hu].
    + exists []. split; [reflexivity | intros u []].
Qed.

Lemma prune_tokens_suffix (ws : Q) (dq : list (Q * Z)) :
  exists old, dq = old ++ prune_tokens ws dq /\ forall e, In e old -> (fst e < ws)%Q.
Proof.
  induction dq as [|t dq (old & E & H)]; simpl.
  - exists []. split; [reflexivity | intros t []].
  - destruct (Qltb (fst t) ws) eqn:L.
    + exists (t :: old). split; [simpl; f_equal; exact E|].
      intros u [<-|Hu]; [apply Qltb_true_iff, L | apply H, Hu].
    + exists []. split; [reflexivity | intros u []].
Qed.

(** The first entry that pruning leaves is in the window. *)
Lemma prune_requests_head (ws : Q) (dq : list Q) (t0 : Q) (rest : list Q) :
  prune_requests ws dq = t0 :: rest -> (ws <= t0)%Q.
Proof.
  induction dq as [|t dq IH]; simpl; [discriminate|].
  destruct (Qltb t ws) eqn:L; [exact IH|].
  intro E. injection E as <- _. apply Qltb_false_iff, L.
Qed.

Lemma prune_tokens_head (ws : Q) (dq : list (Q * Z)) (e0 : Q * Z) (rest : list (Q * Z)) :
  prune_tokens ws dq = e0 :: rest -> (ws <= fst e0)%Q.
Proof.
  induction dq as [|t dq IH]; simpl; [discriminate|].
  destruct (Qltb (fst t) ws) eqn:L; [exact IH|].
  intro E. injection E as <- _. apply Qltb_false_iff, L.
Qed.

(** On a time-ordered log pruning from the front keeps exactly the entries
    of the window. *)
Lemma prune_requests_in_window (ws : Q) (dq : list Q) :
  time_ordered dq -> prune_requests ws dq = requests_in_window ws dq.
Proof.
  unfold requests_in_window.
  induction dq as [|t dq IH]; intro H; simpl; [reflexivity|].
  destruct H as [Hle Hord]. destruct (Qltb t ws) eqn:L; simpl.
  - apply IH, Hord.
  - f_equal. symmetry. apply forallb_filter_id. apply forallb_forall.
    intros u Hu. apply negb_true_iff, Qltb_false_iff.
    apply Qltb_false_iff in L. eapply Qle_trans; [exact L | apply Hle, Hu].
Qed.

Lemma prune_tokens_in_window (ws : Q) (dq : list (Q * Z)) :
  time_ordered (map fst dq) -> prune_tokens ws dq = tokens_in_window ws dq.
Proof.
  unfold tokens_in_window.
  induction dq as [|e dq IH]; intro H; simpl; [reflexivity|].
  destruct H as [Hle Hord]. destruct (Qltb (fst e) ws) eqn:L; simpl.
  - apply IH, Hord.
  - f_equal. symmetry. apply forallb_filter_id. apply forallb_forall.
    intros u Hu. apply negb_true_iff, Qltb_false_iff.
    apply Qltb_false_iff in L. eapply Qle_trans; [exact L|].
    apply Hle. apply in_map, Hu.
Qed.

(** The limiter that [can_proceed] leaves: both logs pruned, also when it
    raises. *)
Lemma can_proceed_state (now : Q) (est : Z) (self : RateLimiter) :
  fst (can_proceed now est self) =
    mkRateLimiter (rl_config self)
      (prune_requests (now - 60) (_request_timestamps self))
      (prune_tokens (now - 60) (_token_usage self)).
Proof.
  unfold can_proceed.
  destruct (max_requests _); [|reflexivity].
  destruct (_ >=? _); [destruct (prune_requests _ _); reflexivity|].
  destruct (max_tokens _); [|reflexivity].
  destruct (_ >? _); [destruct (prune_tokens _ _); reflexivity | reflexivity].
Qed.

(** The request check: with the request cap reached and an entry left in the
    log, the answer is a denial and the wait is the time until the oldest
    entry leaves the window, at least a tenth of a second. *)
Lemma can_proceed_request_denied (now : Q) (est : Z) (self : RateLimiter)
      (request_cap : Z) (t0 : Q) (rest : list Q) :
  max_requests (rl_config self) = Returned request_cap ->
  prune_requests (now - 60) (_request_timestamps self) = t0 :: rest ->
  request_cap <= Z.of_nat (length (t0 :: rest)) ->
  snd (can_proceed now est self)
    = Returned (false, Some (py_max (1 # 10) (t0 - (now - 60)))) /\
  (0 < py_max (1 # 10) (t0 - (now - 60)))%Q.
Proof.
  intros Hcap E Hlen. unfold can_proceed. rewrite Hcap, E.
  destruct (_ >=? _) eqn:G.
  - split; [reflexivity|].
    eapply Qlt_le_trans; [|apply py_max_l]. reflexivity.
  - rewrite Z.geb_leb in G. apply Z.leb_gt in G. lia.
Qed.

(** The token check: below the request cap, with the token cap exceeded and
    an entry left in the token log, the answer is a denial and the wait is
    taken from the oldest token entry. *)
Lemma can_proceed_token_denied (now : Q) (est : Z) (self : RateLimiter)
      (request_cap token_cap : Z) (e0 : Q * Z) (rest : list (Q * Z)) :
  max_requests (rl_config self) = Returned request_cap ->
  max_tokens (rl_config self) = Returned token_cap ->
  Z.of_nat (length (prune_requests (now - 60) (_request_timestamps self)))
    < request_cap ->
  prune_tokens (now - 60) (_token_usage self) = e0 :: rest ->
  sum_tokens (e0 :: rest) + est > token_cap ->
  snd (can_proceed now est self)
    = Returned (false, Some (py_max (1 # 10) (fst e0 - (now - 60)))).
Proof.
  intros Hrc Htc Hreq E Hsum. unfold can_proceed. rewrite Hrc, Htc, E.
  destruct (_ >=? _) eqn:G; [apply Z.geb_le in G; lia|].
  destruct (_ >? _) eqn:G2; [reflexivity|].
  rewrite Z.gtb_ltb in G2. apply Z.ltb_ge in G2. lia.
Qed.

(** The guard of the token check: below the request cap and with no entry
    left in the token log the answer is an allowance, whatever the
    estimate. *)
Lemma can_proceed_token_log_empty (now : Q) (est : Z) (self : RateLimiter)
      (request_cap token_cap : Z) :
  max_requests (rl_config self) = Returned request_cap ->
  max_tokens (rl_config self) = Returned token_cap ->
  Z.of_nat (length (prune_requests (now - 60) (_request_timestamps self)))
    < request_cap ->
  prune_tokens (now - 60) (_token_usage self) = [] ->
  snd (can_proceed now est self) = Returned (true, None).
Proof.
  intros Hrc Htc Hreq E. unfold can_proceed. rewrite Hrc, Htc, E.
  destruct (_ >=? _) eqn:G; [apply Z.geb_le in G; lia|].
  destruct (_ >? _); reflexivity.
Qed.

(** Once every entry of both logs is older than the window, a limiter whose
    request cap is at least one allows again, and its logs are empty. *)
Lemma can_proceed_window_elapsed (now : Q) (est : Z) (self : RateLimiter)
      (request_cap token_cap : Z) :
  max_requests (rl_config self) = Returned request_cap ->
  max_tokens (rl_config self) = Returned token_cap ->
  (forall t, In t (_request_timestamps self) -> (t < now - 60)%Q) ->
  (forall e, In e (_token_usage self) -> (fst e < now - 60)%Q) ->
  1 <= request_cap ->
  can_proceed now est self =
    (mkRateLimiter (rl_config self) [] [], Returned (true, None)).
Proof.
  intros Hrc Htc Hr Ht Hmax. unfold can_proceed. rewrite Hrc, Htc.
  rewrite (prune_requests_all_old _ _ Hr), (prune_tokens_all_old _ _ Ht).
  simpl. destruct (0 >=? _) eqn:G; [apply Z.geb_le in G; lia|].
  destruct (_ >? _); reflexivity.
Qed.

Lemma subseq_tail (x : Q) (l1 l2 : list Q) : subseq (x :: l1) l2 -> subseq l1 l2.
Proof.
  intro H. remember (x :: l1) as l eqn:E. revert x l1 E.
  induction H as [l|y l1' l2 H IH|y l1' l2 H IH]; intros x l1 E.
  - discriminate.
  - apply subseq_skip. eapply IH, E.
  - injection E as -> ->. apply subseq_skip, H.
Qed.

Lemma subseq_In (l1 l2 : list Q) : subseq l1 l2 -> forall t, In t l1 -> In t l2.
Proof.
  induction 1 as [l|y l1 l2 H IH|y l1 l2 H IH]; intros t Ht.
  - destruct Ht.
  - right. apply IH, Ht.
  - destruct Ht as [<-|Ht]; [left; reflexivity | right; apply IH, Ht].
Qed.

Lemma subseq_snoc_r (l1 l2 : list Q) (x : Q) : subseq l1 l2 -> subseq l1 (l2 ++ [x]).
Proof.
  induction 1; simpl; [apply subseq_nil | apply subseq_skip | apply subseq_take];
    assumption.
Qed.

Lemma subseq_snoc (l1 l2 : list Q) (x : Q) :
  subseq l1 l2 -> subseq (l1 ++ [x]) (l2 ++ [x]).
Proof.
  induction 1 as [l|y l1 l2 H IH|y l1 l2 H IH]; simpl.
  - induction l as [|y l IH]; simpl.
    + apply subseq_take, subseq_nil.
    + apply subseq_skip, IH.
  - apply subseq_skip, IH.
  - apply subseq_take, IH.
Qed.

Lemma prune_tokens_subseq (ws : Q) (dq : list (Q * Z)) (l : list Q) :
  subseq (map fst dq) l -> subseq (map fst (prune_tokens ws dq)) l.
Proof.
  induction dq as [|e dq IH]; simpl; intro H; [exact H|].
  destruct (Qltb (fst e) ws); [|exact H].
  apply IH. eapply subseq_tail, H.
Qed.

(** Pruning both logs with one window start keeps the token timestamps a
    subsequence of the request log. *)
Lemma prune_both_subseq (ws : Q) (l : list Q) :
  forall dq, subseq (map fst dq) l ->
             subseq (map fst (prune_tokens ws dq)) (prune_requests ws l).
Proof.
  induction l as [|x l IH]; intros dq H.
  - inversion H as [l' E| |]. destruct dq; [|discriminate]. apply subseq_nil.
  - simpl. destruct (Qltb x ws) eqn:L.
    + inversion H as [l' E|y l1 l2 H1|y l1 l2 H1]; subst.
      * destruct dq; [|discriminate]. apply subseq_nil.
      * apply IH, H1.
      * destruct dq as [|e dq]; [discriminate|]. simpl in H0.
        injection H0 as E1 E2. subst. simpl. rewrite L. apply IH, H1.
    + apply prune_tokens_subseq, H.
Qed.

Lemma rl_call_tokens_follow_requests (c : RLCall) (self : RateLimiter) :
  tokens_follow_requests self -> tokens_follow_requests (rl_call c self).
Proof.
  unfold tokens_follow_requests. intro H. destruct c as [now est|now used]; simpl.
  - rewrite can_proceed_state. simpl. apply prune_both_subseq, H.
  - destruct (used >? 0).
    + rewrite map_app. simpl. apply subseq_snoc, H.
    + apply subseq_snoc_r, H.
Qed.

(** On every limiter reached from a fresh one by a sequence of calls the
    token timestamps are a subsequence of the request log. *)
Lemma rl_calls_tokens_follow_requests (cs : list RLCall) (c : RateLimiterConfig) :
  tokens_follow_requests (rl_calls cs (RateLimiter_init c)).
Proof.
  unfold rl_calls.
  assert (H : tokens_follow_requests (RateLimiter_init c)) by apply subseq_nil.
  revert H. generalize (RateLimiter_init c).
  induction cs as [|x cs IH]; intros self H; simpl; [exact H|].
  apply IH, rl_call_tokens_follow_requests, H.
Qed.

(** On such a limiter, once every logged request is older than the window,
    [can_proceed] allows again when the request cap is at least one. *)
Lemma can_proceed_after_window (now : Q) (est : Z) (self : RateLimiter)
      (request_cap token_cap : Z) :
  max_requests (rl_config self) = Returned request_cap ->
  max_tokens (rl_config self) = Returned token_cap ->
  tokens_follow_requests self ->
  (forall t, In t (_request_timestamps self) -> (t < now - 60)%Q) ->
  1 <= request_cap ->
  can_proceed now est self =
    (mkRateLimiter (rl_config self) [] [], Returned (true, None)).
Proof.
  intros Hrc Htc Hsub Hold Hmax.
  apply (can_proceed_window_elapsed now est self request_cap token_cap); auto.
  intros e He. apply Hold. apply (subseq_In _ _ Hsub). apply in_map, He.
Qed.

Lemma time_ordered_snoc (l : list Q) (x : Q) :
  time_ordered l -> (forall t, In t l -> (t <= x)%Q) -> time_ordered (l ++ [x]).
Proof.
  induction l as [|y l IH]; simpl; intros H Hx.
  - split; [intros u [] | exact I].
  - destruct H as [Hy Hl]. split.
    + intros u Hu. apply in_app_or in Hu. destruct Hu as [Hu|[<-|[]]].
      * apply Hy, Hu.
      * apply Hx. left. reflexivity.
    + apply IH; [exact Hl|]. intros t Ht. apply Hx. right. exact Ht.
Qed.

Lemma time_ordered_app_r (l1 l2 : list Q) : time_ordered (l1 ++ l2) -> time_ordered l2.
Proof. induction l1 as [|y l1 IH]; simpl; [trivial|]. intros [_ H]. apply IH, H. Qed.

Lemma rl_call_ordered (c : RLCall) (self : RateLimiter) (bound : Q -> Prop) :
  rl_ordered (fun t => (t <= call_time c)%Q /\ bound t) self ->
  bound (call_time c) ->
  rl_ordered bound (rl_call c self).
Proof.
  unfold rl_ordered. intros (Hr & Ht & Br & Bt) Hb.
  destruct c as [now est|now used]; simpl in *.
  - rewrite can_proceed_state. simpl.
    destruct (prune_requests_suffix (now - 60) (_request_timestamps self))
      as (oldr & Er & _).
    destruct (prune_tokens_suffix (now - 60) (_token_usage self)) as (oldt & Et & _).
    repeat split.
    + rewrite Er in Hr. eapply time_ordered_app_r, Hr.
    + rewrite Et, map_app in Ht. eapply time_ordered_app_r, Ht.
    + intros t Hin. apply Br. rewrite Er. apply in_or_app. right. exact Hin.
    + intros e Hin. apply Bt. rewrite Et. apply in_or_app. right. exact Hin.
  - repeat split.
    + apply time_ordered_snoc; [exact Hr|]. intros t Hin. apply Br, Hin.
    + destruct (used >? 0); [|exact Ht]. rewrite map_app. simpl.
      apply time_ordered_snoc; [exact Ht|]. intros t Hin.
      apply in_map_iff in Hin. destruct Hin as (e & <- & He). apply Bt, He.
    + intros t Hin. apply in_app_or in Hin. destruct Hin as [Hin|[<-|[]]].
      * apply Br, Hin.
      * exact Hb.
    + intros e Hin. destruct (used >? 0); [|apply Bt, Hin].
      apply in_app_or in Hin. destruct Hin as [Hin|[<-|[]]].
      * apply Bt, Hin.
      * exact Hb.
Qed.

Lemma rl_calls_ordered_from (cs : list RLCall) (self : RateLimiter) :
  time_ordered (map call_time cs) ->
  rl_ordered (fun t => forall c, In c cs -> (t <= call_time c)%Q) self ->
  rl_ordered (fun _ => True) (rl_calls cs self).
Proof.
  unfold rl_calls. revert self. induction cs as [|c cs IH]; intros self Hcs Hinv; simpl.
  - destruct Hinv as (A & B & _ & _). repeat split; auto.
  - destruct Hcs as [Hc Hcs]. apply IH; [exact Hcs|].
    apply rl_call_ordered.
    + destruct Hinv as (A & B & Cr & Ct). repeat split; auto.
      * apply Cr; [exact H | left; reflexivity].
      * intros c' Hc'. apply Cr; [exact H | right; exact Hc'].
      * apply Ct; [exact H | left; reflexivity].
      * intros c' Hc'. apply Ct; [exact H | right; exact Hc'].
    + intros c' Hc'. apply Hc. apply in_map, Hc'.
Qed.

(** When the readings of the clock in a sequence of calls do not decrease,
    both logs of the limiter reached from a fresh one are time-ordered. *)
Lemma rl_calls_time_ordered (cs : list RLCall) (c : RateLimiterConfig) :
  time_ordered (map call_time cs) ->
  time_ordered (_request_timestamps (rl_calls cs (RateLimiter_init c))) /\
  time_ordered (map fst (_token_usage (rl_calls cs (RateLimiter_init c)))).
Proof.
  intro H. destruct (rl_calls_ordered_from cs (RateLimiter_init c) H) as (A & B & _).
  - repeat split; simpl; intros ? [].
  - split; assumption.
Qed.

(** The caps of the default configuration, and two products that the
    rounding of the float decides: [int(60 * 1.2)] is 72 and
    [int(100 * 1.15)] is 114. *)
Example caps_of_default_configuration :
  max_requests default_RateLimiterConfig = Returned 90 /\
  max_tokens default_RateLimiterConfig = Returned 150000 /\
  max_requests (mkRateLimiterConfig 60 100000 (float_lit 12 10)) = Returned 72 /\
  max_tokens (mkRateLimiterConfig 60 100000 (float_lit 12 10)) = Returned 120000 /\
  max_requests (mkRateLimiterConfig 100 100000 (float_lit 115 100)) = Returned 114.
Proof. vm_compute. repeat split. Qed.

(** A cap that cannot be computed: the product with an infinite burst
    allowance is no int, an int of 1030 bits is no float, and a NaN is no
    int either. [can_proceed] raises what the cap raises. *)
Example caps_that_raise :
  max_requests (mkRateLimiterConfig 60 100000 (S754_infinity false))
    = Raised BOverflowError /\
  max_requests (mkRateLimiterConfig (2 ^ 1030) 100000 (float_lit 3 2))
    = Raised BOverflowError /\
  max_requests (mkRateLimiterConfig 60 100000 S754_nan) = Raised BValueError /\
  snd (can_proceed 1000 0
         (RateLimiter_init (mkRateLimiterConfig 60 100000 S754_nan)))
    = Raised BValueError.
Proof. vm_compute. repeat split. Qed.

(** C1, as the claim states it, fails: with an empty token log an estimate
    above the token cap is allowed. Here the cap is 150000 and the
    estimate 200000. *)
Lemma token_limit_empty_log_allows :
  let self := RateLimiter_init default_RateLimiterConfig in
  max_tokens (rl_config self) = Returned 150000 /\
  sum_tokens (tokens_in_window (1000 - 60) (_token_usage self)) + 200000 > 150000 /\
  can_proceed 1000 200000 self = (self, Returned (true, None)).
Proof. vm_compute. repeat split. Qed.

(** The request check comes first: with the request cap reached, the wait
    of the denial is taken from the oldest request (here 10 seconds), not
    from the oldest token entry (15 seconds), although the token cap is
    exceeded as well. *)
Lemma request_check_before_token_check :
  let self := mkRateLimiter (mkRateLimiterConfig 2 100 (float_lit 1 1))
                [950%Q; 955%Q] [(955%Q, 100)] in
  max_tokens (rl_config self) = Returned 100 /\
  sum_tokens (tokens_in_window (1000 - 60) (_token_usage self)) + 10 > 100 /\
  snd (can_proceed 1000 10 self)
    = Returned (false, Some (py_max (1 # 10) (950 - (1000 - 60)))).
Proof. vm_compute. repeat split. Qed.

(** C1, amended. On a limiter with time-ordered logs whose caps
    [int(requests_per_minute * burst_allowance)] and
    [int(tokens_per_minute * burst_allowance)] are computed, and with
    fewer requests in the window than the request cap: when the token log
    has an entry in the window and the tokens of the window plus the
    estimate exceed the token cap, [can_proceed] denies and the wait is
    [max(0.1, t0 - window_start)] for the oldest token entry [t0] of the
    window; when the token log has no entry in the window, [can_proceed]
    allows whatever the estimate. The token cap is the floor of the float
    product when that is a finite float that is not negative. *)
Theorem token_limit_denial :
  forall (self : RateLimiter) (now : Q) (estimated_tokens : Z)
         (request_cap token_cap : Z),
    time_ordered (_request_timestamps self) ->
    time_ordered (map fst (_token_usage self)) ->
    max_requests (rl_config self) = Returned request_cap ->
    max_tokens (rl_config self) = Returned token_cap ->
    Z.of_nat (length (requests_in_window (now - 60) (_request_timestamps self)))
      < request_cap ->
    (forall (e0 : Q * Z) (rest : list (Q * Z)),
        tokens_in_window (now - 60) (_token_usage self) = e0 :: rest ->
        sum_tokens (tokens_in_window (now - 60) (_token_usage self)) + estimated_tokens
          > token_cap ->
        snd (can_proceed now estimated_tokens self)
          = Returned (false, Some (Qmax (1 # 10) (fst e0 - (now - 60))))) /\
    (tokens_in_window (now - 60) (_token_usage self) = [] ->
     snd (can_proceed now estimated_tokens self) = Returned (true, None)) /\
    (forall (m : positive) (e : Z),
        int_times_float (tokens_per_minute (rl_config self))
          (burst_allowance (rl_config self))
        = Returned (S754_finite false m e) ->
        token_cap = Qfloor (float_to_Q (S754_finite false m e))).
Proof.
  intros self now est request_cap token_cap Hr Ht Hrc Htc Hreq.
  rewrite <- (prune_requests_in_window _ _ Hr) in Hreq.
  rewrite <- (prune_tokens_in_window _ _ Ht).
  split; [|split].
  - intros e0 rest E Hsum. rewrite <- py_max_Qmax.
    apply (can_proceed_token_denied now est self request_cap token_cap e0 rest
             Hrc Htc Hreq E).
    rewrite <- E. exact Hsum.
  - intro E.
    apply (can_proceed_token_log_empty now est self request_cap token_cap);
      assumption.
  - intros m e Hx. unfold max_tokens in Htc. rewrite Hx, py_int_floor in Htc.
    injection Htc as <-. reflexivity.
Qed.

Lemma token_limit_denial_witness :
  snd (can_proceed 1000 10
         (mkRateLimiter (mkRateLimiterConfig 60 100 (float_lit 1 1))
            [950%Q] [(950%Q, 100)]))
  = Returned (false, Some (Qmax (1 # 10) (950 - (1000 - 60)))).
Proof.
  destruct (token_limit_denial
              (mkRateLimiter (mkRateLimiterConfig 60 100 (float_lit 1 1))
                 [950%Q] [(950%Q, 100)])
              1000%Q 10 60 100) as (H & _).
  - simpl. split; [intros u [] | exact I].
  - simpl. split; [intros u [] | exact I].
  - vm_compute. reflexivity.
  - vm_compute. reflexivity.
  - vm_compute. reflexivity.
  - apply (H (950%Q, 100) []).
    + reflexivity.
    + vm_compute. reflexivity.
Defined.

(** C2, at the failing input. With [requests_per_minute = 1] and
    [burst_allowance = 0.5] the request cap is [int(0.5) = 0]; on the
    fresh limiter the number of requests in the window, zero, is at least
    the cap and every logged request is older than the window, so the
    claim has [can_proceed] return a tuple. It returns nothing: the
    unguarded [self._request_timestamps[0]] raises [IndexError] on the
    empty deque, where the token check guards the same access with
    [if self._token_usage:]. *)
Theorem request_cap_zero_raises :
  let self := RateLimiter_init (mkRateLimiterConfig 1 100000 (float_lit 1 2)) in
  max_requests (rl_config self) = Returned 0 /\
  Z.of_nat (length (requests_in_window (1000 - 60) (_request_timestamps self))) >= 0 /\
  (forall t, In t (_request_timestamps self) -> (t < 1000 - 60)%Q) /\
  snd (can_proceed 1000 0 self) = Raised BIndexError.
Proof.
  repeat split; try reflexivity.
  - vm_compute. discriminate.
  - intros t [].
Qed.

(** The request cap away from that input. On a limiter whose request cap
    is computed: when the request log is time-ordered and holds at least
    that many timestamps in the window, one at least, [can_proceed]
    returns a denial whose wait is [max(0.1, t0 - window_start)] for the
    oldest timestamp [t0] of the window, a positive number; when the
    token timestamps follow the request log, as they do on every limiter
    reached from a fresh one, every logged request is older than the
    window, the cap is at least one and the token cap is computed,
    [can_proceed] returns [(True, None)] and leaves both logs empty; and
    when every logged request is older than the window and the cap is
    not positive, [can_proceed] raises [IndexError]. *)
Lemma request_limit_denial_and_recovery
      (self : RateLimiter) (now : Q) (estimated_tokens request_cap : Z) :
  max_requests (rl_config self) = Returned request_cap ->
  (forall (t0 : Q) (rest : list Q),
      time_ordered (_request_timestamps self) ->
      requests_in_window (now - 60) (_request_timestamps self) = t0 :: rest ->
      request_cap <= Z.of_nat (length (t0 :: rest)) ->
      snd (can_proceed now estimated_tokens self)
        = Returned (false, Some (Qmax (1 # 10) (t0 - (now - 60)))) /\
      (0 < Qmax (1 # 10) (t0 - (now - 60)))%Q) /\
  (forall token_cap : Z,
      max_tokens (rl_config self) = Returned token_cap ->
      tokens_follow_requests self ->
      (forall t, In t (_request_timestamps self) -> (t < now - 60)%Q) ->
      1 <= request_cap ->
      can_proceed now estimated_tokens self
        = (mkRateLimiter (rl_config self) [] [], Returned (true, None))) /\
  ((forall t, In t (_request_timestamps self) -> (t < now - 60)%Q) ->
   request_cap <= 0 ->
   snd (can_proceed now estimated_tokens self) = Raised BIndexError).
Proof.
  intro Hrc. split; [|split].
  - intros t0 rest Hr E Hlen. rewrite <- (prune_requests_in_window _ _ Hr) in E.
    rewrite <- py_max_Qmax.
    apply (can_proceed_request_denied now estimated_tokens self request_cap t0 rest
             Hrc E Hlen).
  - intros token_cap Htc Hsub Hold Hmax.
    apply (can_proceed_after_window now estimated_tokens self request_cap token_cap);
      assumption.
  - intros Hold Hle. unfold can_proceed. rewrite Hrc.
    rewrite (prune_requests_all_old _ _ Hold). cbn [length Z.of_nat].
    destruct (0 >=? request_cap) eqn:G; [reflexivity|].
    rewrite Z.geb_leb in G. apply Z.leb_gt in G. lia.
Qed.

(** ** Retry handler *)

(** The conversion of an int to a float, on both sides of 53 bits. *)
Example float_of_int_rounds :
  float_of_int 3 = Returned (S754_finite false 6755399441055744 (-51)) /\
  (forall w, float_of_int (2 ^ 53 + 1) = Returned w -> py_int w = Returned (2 ^ 53)) /\
  rounded_int (2 ^ 53 + 1) = Returned (2 ^ 53) /\
  rounded_int (2 ^ 53 + 3) = Returned (2 ^ 53 + 4) /\
  rounded_int (2 ^ 1024) = Raised BOverflowError.
Proof.
  repeat split; try (vm_compute; reflexivity).
  intros w H. vm_compute in H. injection H as <-. vm_compute. reflexivity.
Qed.










(** C7. [should_retry] answers false from attempt [max_retries] on; below
    it the answer is the verdict of the classifier, and false when the
    classifier gives none. *)
Theorem should_retry_follows_classifier :
  forall (Exn : Type) (get_ex_info : Exn -> ExInfo)
         (c : RetryConfig) (attempt : Z) (e : Exn),
    (max_retries c <= attempt -> should_retry Exn get_ex_info c attempt e = false) /\
    (attempt < max_retries c ->
     (forall verdict : bool,
         retry (get_ex_info e) = Some verdict ->
         should_retry Exn get_ex_info c attempt e = verdict) /\
     (retry (get_ex_info e) = None ->
      should_retry Exn get_ex_info c attempt e = false)).
Proof.
  intros Exn get_ex_info c attempt e. unfold should_retry. split.
  - intro H. destruct (attempt >=? max_retries c) eqn:G; [reflexivity|].
    rewrite Z.geb_leb in G. apply Z.leb_gt in G. lia.
  - intro H. destruct (attempt >=? max_retries c) eqn:G.
    + apply Z.geb_le in G. lia.
    + split.
      * intros verdict E. rewrite E. reflexivity.
      * intro E. rewrite E. reflexivity.
Qed.

Lemma should_retry_follows_classifier_witness :
  should_retry bool (fun b => mkExInfo (Some b)) default_RetryConfig 3 true = false /\
  should_retry bool (fun b => mkExInfo (Some b)) default_RetryConfig 0 true = true.
Proof.
  destruct (should_retry_follows_classifier bool (fun b => mkExInfo (Some b))
              default_RetryConfig 3 true) as (H3 & _).
  destruct (should_retry_follows_classifier bool (fun b => mkExInfo (Some b))
              default_RetryConfig 0 true) as (_ & H0).
  split.
  - apply H3. simpl. lia.
  - destruct H0 as (H0 & _); [simpl; lia|]. apply H0. reflexivity.
Defined.

(** ** The orchestrator *)

(** C9. [CircuitBreaker.reset] gives a CLOSED breaker with the failure,
    success and trial-call counters at zero and no last failure time,
    whatever the breaker was, so that a read of its state answers CLOSED
    and [can_execute] answers true at any time; [ProductionMiddleware.reset]
    resets the breaker, replaces the metrics by fresh ones, all zero, and
    leaves the limiter with its two logs, hence its answers, and the
    configuration, as they were. *)
Theorem reset_breaker_and_metrics :
  forall (cb : CircuitBreaker) (m : ProductionMiddleware),
    (_state (cb_reset cb) = CLOSED /\
     _failure_count (cb_reset cb) = 0 /\
     _success_count (cb_reset cb) = 0 /\
     _half_open_calls (cb_reset cb) = 0 /\
     _last_failure_time (cb_reset cb) = None /\
     cb_config (cb_reset cb) = cb_config cb /\
     forall now, state now (cb_reset cb) = (cb_reset cb, CLOSED) /\
                 can_execute now (cb_reset cb) = (cb_reset cb, true)) /\
    (circuit_breaker (reset m) = cb_reset (circuit_breaker m) /\
     metrics (reset m) = MiddlewareMetrics_init /\
     MiddlewareMetrics_init = mkMiddlewareMetrics 0 0 0 0 0 0 0 0 0 None 0 [] /\
     rate_limiter (reset m) = rate_limiter m /\
     _request_timestamps (rate_limiter (reset m)) = _request_timestamps (rate_limiter m) /\
     _token_usage (rate_limiter (reset m)) = _token_usage (rate_limiter m) /\
     (forall now est, can_proceed now est (rate_limiter (reset m))
                      = can_proceed now est (rate_limiter m)) /\
     config (reset m) = config m).
Proof.
  intros cb m. split.
  - repeat split.
  - unfold reset. destruct m as [c b r mt]. simpl. repeat split.
Qed.

(** [can_execute] leaves the configuration and the failure count. *)
Lemma can_execute_frame (now : Q) (self : CircuitBreaker) :
  cb_config (fst (can_execute now self)) = cb_config self /\
  _failure_count (fst (can_execute now self)) = _failure_count self.
Proof.
  destruct self as [cfg st fc sc lft hoc].
  unfold can_execute, state; simpl; destruct st; simpl; cb_tests; simpl; auto.
Qed.

(** One step of a monadic computation: case analysis on the outcome of the
    computation that is run first. *)
Ltac run_step :=
  match goal with
  | |- context [match ?c ?s with pair _ _ => _ end] =>
      let o := fresh "o" in
      let s' := fresh "s" in
      destruct (c s) as [o s'] eqn:?; destruct o
  end.

Section ExecuteProperties.
Variable Exception : Type.
Variable CircuitOpenError : CircuitState -> Q -> Exception.
Variable RateLimitExceededError : option Q -> Exception.
Variable builtin : Builtin -> Exception.
Variable Result : Type.
Variable usage_of : Result -> option Usage.
Variable get_ex_info : Exception -> ExInfo.
Variable clock : nat -> Q.
Variable random : nat -> Q.
Variable func : nat -> Outcome Exception Result.

Local Abbreviation execute' :=
  (execute Exception CircuitOpenError RateLimitExceededError builtin
     Result usage_of get_ex_info clock random func).
Local Abbreviation admission' := (admission Exception builtin clock).
Local Abbreviation attempts_loop' :=
  (attempts_loop Exception builtin Result usage_of get_ex_info
     clock random func).

Lemma same_accounts_refl (s : St Exception) : same_accounts s s.
Proof. unfold same_accounts. auto. Qed.

Lemma same_accounts_trans (s1 s2 s3 : St Exception) :
  same_accounts s1 s2 -> same_accounts s2 s3 -> same_accounts s1 s3.
Proof.
  unfold same_accounts. intros (A1 & A2 & A3 & A4 & A5) (B1 & B2 & B3 & B4 & B5).
  repeat split; congruence.
Qed.

Lemma framed_bind {A B} (c : M Exception A) (k : A -> M Exception B) :
  framed same_accounts c -> (forall a, framed same_accounts (k a)) ->
  framed same_accounts (bind c k).
Proof.
  intros Hc Hk s o s'. unfold bind.
  destruct (c s) as [[a|e] s1] eqn:E; intro H.
  - eapply same_accounts_trans; [eapply Hc, E | eapply Hk, H].
  - injection H as <- <-. eapply Hc, E.
Qed.

Lemma framed_ret {A} (a : A) : framed (Exception := Exception) same_accounts (ret a).
Proof. intros s o s' H. injection H as <- <-. apply same_accounts_refl. Qed.

Lemma framed_raise {A} (e : Exception) :
  framed (A := A) same_accounts (raise e).
Proof. intros s o s' H. injection H as <- <-. apply same_accounts_refl. Qed.

Lemma framed_time_time : framed same_accounts (time_time Exception clock).
Proof.
  intros [m w] o s' H. injection H as <- <-. unfold same_accounts. simpl. auto.
Qed.

Lemma framed_get_self : framed same_accounts (get_self Exception).
Proof.
  intros [m w] o s' H. injection H as <- <-. apply same_accounts_refl.
Qed.

Lemma framed_circuit_breaker_can_execute :
  framed same_accounts (circuit_breaker_can_execute Exception clock).
Proof.
  intros [m w] o s'.
  unfold circuit_breaker_can_execute, bind, get_self.
  destruct (state_reads_clock (circuit_breaker m)).
  - unfold time_time.
    pose proof (can_execute_frame (clock (ticks w)) (circuit_breaker m)) as F.
    destruct (can_execute (clock (ticks w)) (circuit_breaker m)) as [cb ok].
    cbn. intro H. injection H as <- <-. unfold same_accounts. cbn in *. tauto.
  - pose proof (can_execute_frame 0 (circuit_breaker m)) as F.
    destruct (can_execute 0 (circuit_breaker m)) as [cb ok].
    cbn. intro H. injection H as <- <-. unfold same_accounts. cbn in *. tauto.
Qed.

Lemma framed_rate_limiter_can_proceed (est : Z) :
  framed same_accounts (rate_limiter_can_proceed Exception builtin clock est).
Proof.
  intros [m w] o s'.
  unfold rate_limiter_can_proceed, bind, get_self, time_time.
  destruct (can_proceed (clock (ticks w)) est (rate_limiter m)) as [rl [r|]];
    cbn; intro H; injection H as <- <-; unfold same_accounts; cbn; tauto.
Qed.

(** With the middleware enabled and both admission checks passed,
    [execute] goes on with the retry loop from the state the checks
    left. *)
Lemma execute_after_admission (est : Z) (s s1 : St Exception) (wait : option Q) :
  enabled (config (fst s)) = true ->
  admission' est s = (Returns (true, (true, wait)), s1) ->
  execute' est s =
    attempts_loop' (py_range (max_retries (cfg_retry (config (fst s))) + 1)) None s1.
Proof.
  destruct s as [m w]. simpl. intros He.
  unfold admission, execute, bind, get_self.
  rewrite He. simpl.
  repeat run_step; try discriminate.
  unfold ret. intro E. injection E as -> -> ->. simpl.
  rewrite Heqp0. reflexivity.
Qed.

(** The admission checks count the request and leave the rest of the
    accounts: the configuration, the failure count of the breaker, the
    other metrics, the invocations of the operation and the events. *)
Lemma admission_accounts (est : Z) (m : ProductionMiddleware) (w : World Exception)
      (o : Outcome Exception (bool * (bool * option Q))) (s1 : St Exception) :
  admission' est (m, w) = (o, s1) ->
  same_accounts
    (with_metrics (set_total_requests (fun n => n + 1) (metrics m)) m, w) s1.
Proof.
  unfold admission. unfold bind at 1. cbn [update_metrics update_self].
  cbn beta iota. 
  apply (framed_bind (circuit_breaker_can_execute Exception clock)).
  - apply framed_circuit_breaker_can_execute.
  - intro ok. apply framed_bind; [apply framed_rate_limiter_can_proceed|].
    intro r. apply framed_ret.
Qed.

(** An attempt whose invocation of the operation raises [e], when
    [should_retry] answers false: the failure is recorded on the breaker
    and counted, nothing is slept, and [e] itself is raised. *)
Lemma attempt_fails_without_retry (attempt : Z) (rest : list Z)
      (last : option Exception) (m : ProductionMiddleware) (w : World Exception)
      (e : Exception) :
  func (calls w) = Raises e ->
  should_retry Exception get_ex_info (cfg_retry (config m)) attempt e = false ->
  attempts_loop' (attempt :: rest) last (m, w) =
    (Raises e,
     (with_metrics (set_failed_requests (fun n => n + 1) (metrics m))
        (with_circuit_breaker
           (record_failure (clock (S (ticks w))) (circuit_breaker m)) m),
      mkWorld (S (S (ticks w))) (draws w) (S (calls w))
        (if verbose (config m)
         then events w ++ [PrintAttemptFailed attempt e]
         else events w))).
Proof.
  intros Hf Hs. cbn [attempts_loop].
  unfold bind, try_except, attempt_body, bind, time_time, call_func. cbn.
  rewrite Hf. cbn.
  unfold attempt_handler, bind, get_self. cbn. rewrite Hs. cbn.
  destruct (verbose (config m)); reflexivity.
Qed.

Lemma py_range_succ (n : Z) :
  0 <= n -> py_range (n + 1) = 0 :: map Z.of_nat (seq 1 (Z.to_nat n)).
Proof.
  intro H. unfold py_range. replace (Z.to_nat (n + 1)) with (S (Z.to_nat n)) by lia.
  reflexivity.
Qed.

Lemma should_retry_not_retryable (c : RetryConfig) (attempt : Z) (e : Exception) :
  retry (get_ex_info e) <> Some true ->
  should_retry Exception get_ex_info c attempt e = false.
Proof.
  intro H. unfold should_retry. destruct (attempt >=? max_retries c); [reflexivity|].
  destruct (retry (get_ex_info e)) as [[|]|]; congruence.
Qed.

(** C8. On an enabled middleware whose two admission checks pass, when the
    invocation of the operation in attempt 0 raises [e] and the classifier
    does not call [e] retryable, [execute] raises [e] itself; the counter of
    failed requests and the failure count of the breaker have grown by
    one, the counter of retried requests is as it was (zero on a fresh
    middleware), the request is counted, the operation was invoked once
    and nothing was slept. Attempt 0 takes place when [max_retries] is not
    negative. *)
Theorem execute_non_retryable_failure :
  forall (estimated_tokens : Z) (m m1 : ProductionMiddleware)
         (w w1 : World Exception) (wait : option Q) (e : Exception),
    enabled (config m) = true ->
    admission' estimated_tokens (m, w) = (Returns (true, (true, wait)), (m1, w1)) ->
    0 <= max_retries (cfg_retry (config m)) ->
    func (calls w) = Raises e ->
    retry (get_ex_info e) <> Some true ->
    exists (mf : ProductionMiddleware) (wf : World Exception),
      execute' estimated_tokens (m, w) = (Raises e, (mf, wf)) /\
      failed_requests (metrics mf) = failed_requests (metrics m) + 1 /\
      retried_requests (metrics mf) = retried_requests (metrics m) /\
      _failure_count (circuit_breaker mf) = _failure_count (circuit_breaker m) + 1 /\
      total_requests (metrics mf) = total_requests (metrics m) + 1 /\
      successful_requests (metrics mf) = successful_requests (metrics m) /\
      calls wf = S (calls w) /\
      events wf = (if verbose (config m)
                   then events w ++ [PrintAttemptFailed 0 e]
                   else events w).
Proof.
  intros est m m1 w w1 wait e Hen Hadm Hmax Hf Hr.
  destruct (admission_accounts est m w _ _ Hadm) as (A1 & A2 & A3 & A4 & A5).
  cbn [fst snd with_metrics config circuit_breaker metrics] in *.
  rewrite (execute_after_admission est (m, w) (m1, w1) wait Hen Hadm).
  cbn [fst]. rewrite (py_range_succ _ Hmax).
  rewrite <- A4 in Hf.
  rewrite (attempt_fails_without_retry 0 _ None m1 w1 e Hf
             (should_retry_not_retryable _ 0 e Hr)).
  eexists. eexists. split; [reflexivity|].
  cbn. rewrite A1, A2, A3, A4, A5. cbn. repeat split.
Qed.
End ExecuteProperties.

Lemma execute_non_retryable_failure_witness :
  exists (mf : ProductionMiddleware) (wf : World PyException),
    py_execute py_failing_func 0
      (ProductionMiddleware_init default_MiddlewareConfig, world0)
    = (Raises PyAuthenticationError, (mf, wf)) /\
    failed_requests (metrics mf) = 1 /\
    retried_requests (metrics mf) = 0 /\
    _failure_count (circuit_breaker mf) = 1.
Proof.
  destruct (execute_non_retryable_failure
              PyException PyCircuitOpenError PyRateLimitExceededError PyBuiltin
              (option Usage) (fun r => r) py_get_ex_info
              py_clock py_random py_failing_func 0
              (ProductionMiddleware_init default_MiddlewareConfig)
              (with_metrics
                 (set_total_requests (fun n => n + 1) MiddlewareMetrics_init)
                 (ProductionMiddleware_init default_MiddlewareConfig))
              world0 (mkWorld 1 0 0 []) None PyAuthenticationError)
    as (mf & wf & H & H1 & H2 & H3 & _).
  - reflexivity.
  - vm_compute. reflexivity.
  - simpl. lia.
  - reflexivity.
  - simpl. discriminate.
  - exists mf, wf. repeat split; assumption.
Defined.

(** ** The tests of the repository, run on the embedding *)

(** [test_opens_after_threshold_failures] *)
Example test_opens_after_threshold_failures :
  snd (state 1004%Q
         (record_failures [1001%Q; 1002%Q; 1003%Q]
            (CircuitBreaker_init (mkCircuitBreakerConfig 3 30 3 2)))) = OPEN.
Proof. reflexivity. Qed.

(** [test_transitions_to_half_open] and
    [test_closes_after_success_in_half_open] *)
Example test_closes_after_success_in_half_open :
  let cb0 := record_failure 1000%Q
               (CircuitBreaker_init (mkCircuitBreakerConfig 1 (1 # 10) 3 2)) in
  snd (state 1000%Q cb0) = OPEN /\
  let '(cb1, st1) := state (100015 # 100) cb0 in
  st1 = HALF_OPEN /\
  snd (state (100016 # 100) (record_success (record_success cb1))) = CLOSED.
Proof. repeat split. Qed.

(** [test_blocks_when_limit_exceeded] *)
Example test_blocks_when_limit_exceeded :
  snd (can_proceed 1002 0
         (record_request 1001 0
            (record_request 1000 0
               (RateLimiter_init (mkRateLimiterConfig 2 100000 (float_lit 1 1))))))
  = Returned (false, Some (py_max (1 # 10) (1000 - (1002 - 60)))).
Proof. vm_compute. reflexivity. Qed.

(** [test_respects_token_limit] *)
Example test_respects_token_limit :
  snd (can_proceed 1001 10
         (record_request 1000 100
            (RateLimiter_init (mkRateLimiterConfig 60 100 (float_lit 1 1)))))
  = Returned (false, Some (py_max (1 # 10) (1000 - (1001 - 60)))).
Proof. vm_compute. reflexivity. Qed.

(** [test_should_retry_respects_max_retries] *)
Example test_should_retry_respects_max_retries :
  let c := mkRetryConfig 2 1 60 2 (1 # 10) in
  should_retry PyException py_get_ex_info c 0 PyTimeout = true /\
  should_retry PyException py_get_ex_info c 1 PyTimeout = true /\
  should_retry PyException py_get_ex_info c 2 PyTimeout = false.
Proof. repeat split. Qed.

(** [test_executes_successfully] *)
Example test_executes_successfully :
  match py_execute (fun _ => Returns None) 0
          (ProductionMiddleware_init default_MiddlewareConfig, world0) with
  | (Returns (Some None), (m, _)) =>
      successful_requests (metrics m) = 1 /\ failed_requests (metrics m) = 0
  | _ => False
  end.
Proof. vm_compute. split; reflexivity. Qed.

(** [test_raises_circuit_open_error] *)
Example test_raises_circuit_open_error :
  let c := mkMiddlewareConfig (mkCircuitBreakerConfig 1 30 3 2)
             default_RateLimiterConfig default_RetryConfig true false in
  let m := ProductionMiddleware_init c in
  let m := with_circuit_breaker (record_failure 999%Q (circuit_breaker m)) m in
  match py_execute (fun _ => Returns None) 0 (m, world0) with
  | (Raises (PyCircuitOpenError OPEN _), (m', w')) =>
      circuit_breaker_rejections (metrics m') = 1 /\ calls w' = 0%nat
  | _ => False
  end.
Proof. vm_compute. split; reflexivity. Qed.

(** [test_raises_rate_limit_error] *)
Example test_raises_rate_limit_error :
  let c := mkMiddlewareConfig default_CircuitBreakerConfig
             (mkRateLimiterConfig 1 100000 (float_lit 1 1)) default_RetryConfig true false in
  let m := ProductionMiddleware_init c in
  let m := with_rate_limiter (record_request 999%Q 0 (rate_limiter m)) m in
  match py_execute (fun _ => Returns None) 0 (m, world0) with
  | (Raises (PyRateLimitExceededError (Some _)), (m', w')) =>
      rate_limit_rejections (metrics m') = 1 /\ calls w' = 0%nat
  | _ => False
  end.
Proof. vm_compute. split; reflexivity. Qed.

(** [test_disabled_middleware_passes_through] *)
Example test_disabled_middleware_passes_through :
  let c := mkMiddlewareConfig default_CircuitBreakerConfig
             default_RateLimiterConfig default_RetryConfig false false in
  let m := ProductionMiddleware_init c in
  let m := with_circuit_breaker
             (record_failures [1%Q; 2%Q; 3%Q; 4%Q; 5%Q] (circuit_breaker m)) m in
  py_execute (fun _ => Returns None) 0 (m, world0)
  = (Returns (Some None), (m, mkWorld 0 0 1 [])).
Proof. reflexivity. Qed.

(** A retryable error twice, then a result: two retries are counted, two
    delays are slept and the breaker is CLOSED. *)
Example execute_retries_then_succeeds :
  match py_execute (fun k => if (k <? 2)%nat then Raises PyTimeout else Returns None) 0
          (ProductionMiddleware_init default_MiddlewareConfig, world0) with
  | (Returns (Some None), (m, w)) =>
      retried_requests (metrics m) = 2 /\
      successful_requests (metrics m) = 1 /\
      failed_requests (metrics m) = 0 /\
      _state (circuit_breaker m) = CLOSED /\
      calls w = 3%nat /\
      length (events w) = 2%nat
  | _ => False
  end.
Proof. vm_compute. repeat split. Qed.

(** With a request cap of zero the first call of [execute] fails with the
    [IndexError] of the limiter, after the request was counted. *)
Example execute_request_cap_zero :
  let c := mkMiddlewareConfig default_CircuitBreakerConfig
             (mkRateLimiterConfig 1 100000 (float_lit 1 2)) default_RetryConfig true false in
  match py_execute (fun _ => Returns None) 0 (ProductionMiddleware_init c, world0) with
  | (Raises (PyBuiltin BIndexError), (m, w)) =>
      total_requests (metrics m) = 1 /\ calls w = 0%nat
  | _ => False
  end.
Proof. vm_compute. split; reflexivity. Qed.
